(** * Deal Admin Hub backend: a shallow embedding of [main.py] and [schemas.py]

    The handlers of [main.py] are translated to functions over an explicit
    document store.  Every handler is a computation in a small state and
    error monad: the state is the content of the four MongoDB collections,
    an error is a raised exception.  What a handler obtains from outside
    the store (a fresh [uuid4] token, the wall clock) is passed in an
    environment record. *)

From Stdlib Require Import PrimFloat Ascii String.
From stdpp Require Import base option list gmap strings.

Local Open Scope string_scope.
Local Open Scope list_scope.

(** ** JSON values

    The request models declare [my_details], [client_details], [project],
    [terms] and [bank_details] as [dict]: a parsed JSON object whose values
    are arbitrary JSON.  Python's [None] and JSON's [null] are the same
    value. *)

#[local] Set Warnings "-register-all".

Inductive Json : Type :=
| JNull
| JBool (b : bool)
| JInt (z : Z)
| JFloat (f : float)
| JStr (s : string)
| JArr (l : list Json)
| JObj (m : gmap string Json).

#[local] Set Warnings "+register-all".

Abbreviation Blob := (gmap string Json).

(** Python truth value of a JSON value, as used by [or], [if] and [not]. *)
Definition truthy (v : Json) : bool :=
  match v with
  | JNull => false
  | JBool b => b
  | JInt z => negb (z =? 0)%Z
  | JFloat f => negb (PrimFloat.eqb f 0%float)
  | JStr s => negb (String.eqb s "")
  | JArr l => match l with [] => false | _ => true end
  | JObj m => negb (bool_decide (m = ∅))
  end.

(** [x or y] *)
Definition py_or (x y : Json) : Json := if truthy x then x else y.

(** [d.get(k)] and [d.get(k, dflt)] *)
Definition dict_get (d : Blob) (k : string) : Json := default JNull (d !! k).
Definition dict_get_default (d : Blob) (k : string) (dflt : Json) : Json :=
  default dflt (d !! k).

(** ** Strings

    Strings are sequences of 8-bit characters; [str.lower] and
    [str.capitalize] act on the ASCII letters and leave the other
    characters alone. *)

Definition is_upper (c : ascii) : bool :=
  let n := nat_of_ascii c in Nat.leb 65 n && Nat.leb n 90.
Definition is_lower (c : ascii) : bool :=
  let n := nat_of_ascii c in Nat.leb 97 n && Nat.leb n 122.
Definition to_lower (c : ascii) : ascii :=
  if is_upper c then ascii_of_nat (nat_of_ascii c + 32) else c.
Definition to_upper (c : ascii) : ascii :=
  if is_lower c then ascii_of_nat (nat_of_ascii c - 32) else c.

(** [s.lower()] *)
Fixpoint lower (s : string) : string :=
  match s with
  | EmptyString => EmptyString
  | String c r => String (to_lower c) (lower r)
  end.

(** [s.capitalize()]: first character upper case, the rest lower case. *)
Definition capitalize (s : string) : string :=
  match s with
  | EmptyString => EmptyString
  | String c r => String (to_upper c) (lower r)
  end.

(** Truth value of a [str]: the empty string is false. *)
Definition str_truthy (s : string) : bool := negb (String.eqb s "").

(** ** Entity schemas ([schemas.py])

    One record per Pydantic model.  [Optional] fields are options, the
    [Dict[str, Any]] fields are JSON objects, [float] is the machine
    float.  A [deal_id] is the string form of a store identifier; [str] is
    injective on identifiers, so the identifier itself stands for it. *)

Definition ObjectId := nat.
Definition Time := nat.

Module Deal.
Record t := mk {
  client_name : string;
  client_company : option string;
  client_contact : option string;
  project_name : string;
  project_description : option string;
  my_name : string;
  my_contact : option string;
  status : string
}.
End Deal.

Module Mou.
Record t := mk {
  deal_id : ObjectId;
  my_details : Blob;
  client_details : Blob;
  project : Blob;
  terms : Blob;
  status : string;
  sign_token : string;
  signed_at : option string;
  client_signature_name : option string;
  client_signature_title : option string
}.
End Mou.

Module Invoice.
Record t := mk {
  deal_id : ObjectId;
  my_details : Blob;
  client_name : string;
  project_name : string;
  invoice_number : string;
  invoice_date : string;
  due_date : option string;
  amount : float;
  currency : string;
  bank_details : Blob;
  payment_reference : string;
  status : string;
  view_token : string;
  paid_at : option string;
  payment_method : option string;
  amount_received : option float
}.
End Invoice.

Module Receipt.
Record t := mk {
  invoice_token : string;
  deal_id : ObjectId;
  my_details : Blob;
  client_name : string;
  project_name : string;
  invoice_number : string;
  original_amount : float;
  amount_paid : float;
  payment_date : string;
  payment_method : string;
  payment_reference : string
}.
End Receipt.

(** ** Request models ([main.py]) *)

Module CreateMouRequest.
Record t := mk {
  my_details : Blob;
  client_details : Blob;
  project : Blob;
  terms : Blob
}.
End CreateMouRequest.

Module SignMouRequest.
Record t := mk { name : string; title : string; agree : bool }.
End SignMouRequest.

Module CreateInvoiceRequest.
Record t := mk {
  my_details : Blob;
  client_name : string;
  project_name : string;
  invoice_number : string;
  invoice_date : string;
  due_date : option string;
  amount : float;
  currency : string;
  bank_details : Blob;
  payment_reference : string
}.
End CreateInvoiceRequest.

Module MarkPaidRequest.
Record t := mk {
  payment_date : option string;
  payment_method : string;
  amount_received : float;
  payment_reference : string
}.
End MarkPaidRequest.

(** ** Errors

    [HTTPException(status_code, detail)] as raised by the handlers, and the
    validation error Pydantic raises when a model is built from a value of
    the wrong type. *)

Inductive Error : Type :=
| HTTPException (status_code : nat) (detail : string)
| ValidationError.

(** Pydantic's validation of a [str] and of an [Optional[str]] field when
    the value comes from a JSON object: a string is taken as it is, [None]
    is accepted by the optional field only, and a value of another JSON
    type is refused (Pydantic 2 does not turn numbers into strings).  The
    statements below only speak of entries that are strings, [null] or
    missing. *)
Definition validate_str (v : Json) : Error + string :=
  match v with
  | JStr s => inr s
  | _ => inl ValidationError
  end.

Definition validate_opt_str (v : Json) : Error + option string :=
  match v with
  | JNull => inr None
  | JStr s => inr (Some s)
  | _ => inl ValidationError
  end.

(** [Deal(client_name=.., client_company=.., client_contact=..,
    project_name=.., project_description=..)] with the defaults of the
    schema for the fields that are not passed. *)
Definition Deal_new (client_name client_company client_contact
                     project_name project_description : Json) : Error + Deal.t :=
  match validate_str client_name with inl e => inl e | inr cn =>
  match validate_opt_str client_company with inl e => inl e | inr cc =>
  match validate_opt_str client_contact with inl e => inl e | inr ct =>
  match validate_str project_name with inl e => inl e | inr pn =>
  match validate_opt_str project_description with inl e => inl e | inr pd =>
    inr {| Deal.client_name := cn;
           Deal.client_company := cc;
           Deal.client_contact := ct;
           Deal.project_name := pn;
           Deal.project_description := pd;
           Deal.my_name := "Dimiro Networks / 59 Shift";
           Deal.my_contact := None;
           Deal.status := "active" |}
  end end end end end.

(** ** The document store

    A collection is the list of its documents in insertion order, which is
    the order in which an unsorted [find_one] scans them.  Every stored
    document carries its identifier and its creation time next to the
    fields of its model. *)

Record Stored (A : Type) : Type := mkStored {
  _id : ObjectId;
  created_at : Time;
  doc : A
}.
Arguments mkStored {A} _ _ _.
Arguments _id {A} _.
Arguments created_at {A} _.
Arguments doc {A} _.

Record Store : Type := mkStore {
  db_deal : list (Stored Deal.t);
  db_mou : list (Stored Mou.t);
  db_invoice : list (Stored Invoice.t);
  db_receipt : list (Stored Receipt.t)
}.

Definition empty_store : Store := mkStore [] [] [] [].

(** [db[name]]: a collection of the store, read and written as a whole. *)
Record Collection (A : Type) : Type := mkCollection {
  coll_get : Store -> list (Stored A);
  coll_set : list (Stored A) -> Store -> Store
}.
Arguments coll_get {A} _ _.
Arguments coll_set {A} _ _ _.

Definition c_deal : Collection Deal.t :=
  mkCollection _ db_deal
    (fun l s => mkStore l (db_mou s) (db_invoice s) (db_receipt s)).
Definition c_mou : Collection Mou.t :=
  mkCollection _ db_mou
    (fun l s => mkStore (db_deal s) l (db_invoice s) (db_receipt s)).
Definition c_invoice : Collection Invoice.t :=
  mkCollection _ db_invoice
    (fun l s => mkStore (db_deal s) (db_mou s) l (db_receipt s)).
Definition c_receipt : Collection Receipt.t :=
  mkCollection _ db_receipt
    (fun l s => mkStore (db_deal s) (db_mou s) (db_invoice s) l).

(** Identifier generation: the store hands out an identifier that no
    document of any collection has, here the successor of the greatest
    one in use. *)
Definition max_id {A} (l : list (Stored A)) : ObjectId :=
  foldr (fun d n => Nat.max (_id d) n) 0 l.

Definition fresh_oid (s : Store) : ObjectId :=
  S (Nat.max (Nat.max (max_id (db_deal s)) (max_id (db_mou s)))
             (Nat.max (max_id (db_invoice s)) (max_id (db_receipt s)))).

(** ** The handler monad: store passing with exceptions *)

Definition M (A : Type) : Type := Store -> (Error + A) * Store.

Definition ret {A} (a : A) : M A := fun s => (inr a, s).
Definition raise {A} (e : Error) : M A := fun s => (inl e, s).
Definition bind {A B} (m : M A) (k : A -> M B) : M B :=
  fun s => match m s with
           | (inl e, s') => (inl e, s')
           | (inr a, s') => k a s'
           end.
Definition lift {A} (r : Error + A) : M A := fun s => (r, s).

Notation "'let*' x ':=' m 'in' k" := (bind m (fun x => k))
  (at level 10, x name, m at level 100, k at level 200).

(** ** Collection operations (pymongo) *)

(** [find_one(filter)]: the first document, in insertion order, that
    satisfies the filter. *)
Definition find_one {A} (c : Collection A) (filter : A -> bool)
  : M (option (Stored A)) :=
  fun s => (inr (List.find (fun d => filter (doc d)) (coll_get c s)), s).

(** The document with the greatest [created_at]; of several with the same
    greatest time, the one inserted first. *)
Fixpoint latest {A} (l : list (Stored A)) : option (Stored A) :=
  match l with
  | [] => None
  | d :: r =>
      match latest r with
      | None => Some d
      | Some e => if Nat.ltb (created_at d) (created_at e) then Some e else Some d
      end
  end.

(** [find_one(filter, sort=[("created_at", -1)])]: the filter is applied,
    the matches are ordered by creation time, latest first, and the first
    is returned. *)
Definition find_one_sorted {A} (c : Collection A) (filter : A -> bool)
  : M (option (Stored A)) :=
  fun s =>
    (inr (latest (List.filter (fun d => filter (doc d)) (coll_get c s))), s).

(** The update of [update_one] and [find_one_and_update]: the first
    document that satisfies the filter is replaced by its update, the
    others stay. *)
Fixpoint update_first {A} (filter : A -> bool) (upd : A -> A)
  (l : list (Stored A)) : list (Stored A) :=
  match l with
  | [] => []
  | d :: r =>
      if filter (doc d)
      then mkStored (_id d) (created_at d) (upd (doc d)) :: r
      else d :: update_first filter upd r
  end.

(** [update_one(filter, {"$set": ..})] *)
Definition update_one {A} (c : Collection A) (filter : A -> bool)
  (upd : A -> A) : M unit :=
  fun s => (inr tt, coll_set c (update_first filter upd (coll_get c s)) s).

(** [find_one_and_update(filter, {"$set": ..}, return_document=True)]:
    the update of [update_one], returning the document as it is after the
    update, or [None] when no document satisfies the filter. *)
Definition find_one_and_update {A} (c : Collection A) (filter : A -> bool)
  (upd : A -> A) : M (option (Stored A)) :=
  fun s =>
    match List.find (fun d => filter (doc d)) (coll_get c s) with
    | None => (inr None, s)
    | Some d =>
        (inr (Some (mkStored (_id d) (created_at d) (upd (doc d)))),
         coll_set c (update_first filter upd (coll_get c s)) s)
    end.

(** Modelled from the spec: [database.create_document], whose module is not
    part of the sources.  The document is inserted in the named collection
    under a store-generated identifier that no stored document has, its
    creation time is recorded for the "most recently created" lookups, and
    the stringified identifier is returned. *)
Definition create_document {A} (c : Collection A) (now : Time) (data : A)
  : M ObjectId :=
  fun s =>
    let oid := fresh_oid s in
    (inr oid, coll_set c (coll_get c s ++ [mkStored oid now data]) s).

(** ** What a handler takes from outside the store

    The token and the clock readings are arbitrary: no statement relies on
    tokens being distinct or on the clock being monotone. *)

Record Env : Type := mkEnv {
  uuid4_hex : string;        (* [uuid4().hex] *)
  utcnow_iso : string;       (* [datetime.utcnow().isoformat()] *)
  utcnow_date_iso : string;  (* [datetime.utcnow().date().isoformat()] *)
  clock1 : Time;   (* the clock when a deal or a receipt is inserted *)
  clock2 : Time    (* the clock when an MOU or an invoice is inserted *)
}.

(** ** Responses *)

Module CreateMouResponse.
Record t := mk { mou_id : ObjectId; sign_url_token : string }.
End CreateMouResponse.

Module CreateInvoiceResponse.
Record t := mk { invoice_id : ObjectId; view_url_token : string }.
End CreateInvoiceResponse.

Module MarkPaidResponse.
Record t := mk { status : string; receipt_id : ObjectId }.
End MarkPaidResponse.

Module StatusLink.
Record t := mk { status : string; link : option string }.
End StatusLink.

Module Snapshot.
Record t := mk {
  client_name : string;
  project_name : string;
  mou : StatusLink.t;
  invoice : StatusLink.t;
  receipt_available : bool;
  next_step : string
}.
End Snapshot.

(** ** MOU endpoints *)

(** [POST /api/mou] *)
Definition create_mou (env : Env) (payload : CreateMouRequest.t)
  : M CreateMouResponse.t :=
  let token := uuid4_hex env in
  let client_details := CreateMouRequest.client_details payload in
  let project := CreateMouRequest.project payload in
  let* deal := lift (Deal_new
      (py_or (dict_get client_details "client_name")
             (dict_get_default client_details "name" (JStr "")))
      (dict_get client_details "company")
      (dict_get client_details "contact")
      (dict_get_default project "name" (JStr ""))
      (dict_get project "description")) in
  let* deal_id := create_document c_deal (clock1 env) deal in
  let mou :=
    {| Mou.deal_id := deal_id;
       Mou.my_details := CreateMouRequest.my_details payload;
       Mou.client_details := client_details;
       Mou.project := project;
       Mou.terms := CreateMouRequest.terms payload;
       Mou.status := "sent";
       Mou.sign_token := token;
       Mou.signed_at := None;
       Mou.client_signature_name := None;
       Mou.client_signature_title := None |} in
  let* mou_id := create_document c_mou (clock2 env) mou in
  ret {| CreateMouResponse.mou_id := mou_id;
         CreateMouResponse.sign_url_token := token |}.

(** The filter [{"sign_token": token}] *)
Definition by_sign_token (token : string) (m : Mou.t) : bool :=
  String.eqb (Mou.sign_token m) token.

(** [GET /api/mou/{token}] *)
Definition get_mou_by_token (token : string) : M (Stored Mou.t) :=
  let* doc := find_one c_mou (by_sign_token token) in
  match doc with
  | None => raise (HTTPException 404 "MOU not found")
  | Some d => ret d
  end.

(** The [$set] of the sign handler. *)
Definition set_signed (env : Env) (payload : SignMouRequest.t) (m : Mou.t)
  : Mou.t :=
  {| Mou.deal_id := Mou.deal_id m;
     Mou.my_details := Mou.my_details m;
     Mou.client_details := Mou.client_details m;
     Mou.project := Mou.project m;
     Mou.terms := Mou.terms m;
     Mou.status := "signed";
     Mou.sign_token := Mou.sign_token m;
     Mou.signed_at := Some (utcnow_iso env);
     Mou.client_signature_name := Some (SignMouRequest.name payload);
     Mou.client_signature_title := Some (SignMouRequest.title payload) |}.

(** [POST /api/mou/{token}/sign] *)
Definition sign_mou (env : Env) (token : string) (payload : SignMouRequest.t)
  : M string :=
  if negb (SignMouRequest.agree payload)
  then raise (HTTPException 400 "Agreement checkbox is required")
  else
    let* result :=
      find_one_and_update c_mou (by_sign_token token) (set_signed env payload) in
    match result with
    | None => raise (HTTPException 404 "MOU not found")
    | Some _ => ret "signed"
    end.

(** ** Invoice endpoints *)

(** The filter [{"client_name": .., "project_name": ..}] *)
Definition by_names (client_name project_name : string) (d : Deal.t) : bool :=
  String.eqb (Deal.client_name d) client_name
  && String.eqb (Deal.project_name d) project_name.

(** [Deal(client_name=.., project_name=..)] from two strings. *)
Definition Deal_of_names (client_name project_name : string) : Deal.t :=
  {| Deal.client_name := client_name;
     Deal.client_company := None;
     Deal.client_contact := None;
     Deal.project_name := project_name;
     Deal.project_description := None;
     Deal.my_name := "Dimiro Networks / 59 Shift";
     Deal.my_contact := None;
     Deal.status := "active" |}.

(** [POST /api/invoice] *)
Definition create_invoice (env : Env) (payload : CreateInvoiceRequest.t)
  : M CreateInvoiceResponse.t :=
  let token := uuid4_hex env in
  let client_name := CreateInvoiceRequest.client_name payload in
  let project_name := CreateInvoiceRequest.project_name payload in
  let* deal := find_one c_deal (by_names client_name project_name) in
  let* deal_id :=
    match deal with
    | None => create_document c_deal (clock1 env)
                (Deal_of_names client_name project_name)
    | Some d => ret (_id d)
    end in
  let inv :=
    {| Invoice.deal_id := deal_id;
       Invoice.my_details := CreateInvoiceRequest.my_details payload;
       Invoice.client_name := client_name;
       Invoice.project_name := project_name;
       Invoice.invoice_number := CreateInvoiceRequest.invoice_number payload;
       Invoice.invoice_date := CreateInvoiceRequest.invoice_date payload;
       Invoice.due_date := CreateInvoiceRequest.due_date payload;
       Invoice.amount := CreateInvoiceRequest.amount payload;
       Invoice.currency := CreateInvoiceRequest.currency payload;
       Invoice.bank_details := CreateInvoiceRequest.bank_details payload;
       Invoice.payment_reference :=
         CreateInvoiceRequest.payment_reference payload;
       Invoice.status := "sent";
       Invoice.view_token := token;
       Invoice.paid_at := None;
       Invoice.payment_method := None;
       Invoice.amount_received := None |} in
  let* inv_id := create_document c_invoice (clock2 env) inv in
  ret {| CreateInvoiceResponse.invoice_id := inv_id;
         CreateInvoiceResponse.view_url_token := token |}.

(** The filter [{"view_token": token}] *)
Definition by_view_token (token : string) (i : Invoice.t) : bool :=
  String.eqb (Invoice.view_token i) token.

(** [GET /api/invoice/{token}] *)
Definition get_invoice_by_token (token : string) : M (Stored Invoice.t) :=
  let* doc := find_one c_invoice (by_view_token token) in
  match doc with
  | None => raise (HTTPException 404 "Invoice not found")
  | Some d => ret d
  end.

(** [payload.payment_date or datetime.utcnow().date().isoformat()] *)
Definition payment_date_of (env : Env) (payload : MarkPaidRequest.t) : string :=
  match MarkPaidRequest.payment_date payload with
  | Some d => if str_truthy d then d else utcnow_date_iso env
  | None => utcnow_date_iso env
  end.

(** The [$set] of the mark-paid handler. *)
Definition set_paid (payment_date : string) (payload : MarkPaidRequest.t)
  (i : Invoice.t) : Invoice.t :=
  {| Invoice.deal_id := Invoice.deal_id i;
     Invoice.my_details := Invoice.my_details i;
     Invoice.client_name := Invoice.client_name i;
     Invoice.project_name := Invoice.project_name i;
     Invoice.invoice_number := Invoice.invoice_number i;
     Invoice.invoice_date := Invoice.invoice_date i;
     Invoice.due_date := Invoice.due_date i;
     Invoice.amount := Invoice.amount i;
     Invoice.currency := Invoice.currency i;
     Invoice.bank_details := Invoice.bank_details i;
     Invoice.payment_reference := Invoice.payment_reference i;
     Invoice.status := "paid";
     Invoice.view_token := Invoice.view_token i;
     Invoice.paid_at := Some payment_date;
     Invoice.payment_method := Some (MarkPaidRequest.payment_method payload);
     Invoice.amount_received :=
       Some (MarkPaidRequest.amount_received payload) |}.

(** [POST /api/invoice/{token}/paid] *)
Definition mark_invoice_paid (env : Env) (token : string)
  (payload : MarkPaidRequest.t) : M MarkPaidResponse.t :=
  let* found := find_one c_invoice (by_view_token token) in
  match found with
  | None => raise (HTTPException 404 "Invoice not found")
  | Some d =>
      let payment_date := payment_date_of env payload in
      let* _ := update_one c_invoice (by_view_token token)
                  (set_paid payment_date payload) in
      let receipt :=
        {| Receipt.invoice_token := token;
           Receipt.deal_id := Invoice.deal_id (doc d);
           Receipt.my_details := Invoice.my_details (doc d);
           Receipt.client_name := Invoice.client_name (doc d);
           Receipt.project_name := Invoice.project_name (doc d);
           Receipt.invoice_number := Invoice.invoice_number (doc d);
           Receipt.original_amount := Invoice.amount (doc d);
           Receipt.amount_paid := MarkPaidRequest.amount_received payload;
           Receipt.payment_date := payment_date;
           Receipt.payment_method := MarkPaidRequest.payment_method payload;
           Receipt.payment_reference :=
             MarkPaidRequest.payment_reference payload |} in
      let* receipt_id := create_document c_receipt (clock1 env) receipt in
      ret {| MarkPaidResponse.status := "paid";
             MarkPaidResponse.receipt_id := receipt_id |}
  end.

(** ** Snapshot endpoint *)

(** The filters [{"deal_id": deal_id}] and [{"invoice_token": token}] *)
Definition mou_by_deal_id (deal_id : ObjectId) (m : Mou.t) : bool :=
  Nat.eqb (Mou.deal_id m) deal_id.
Definition invoice_by_deal_id (deal_id : ObjectId) (i : Invoice.t) : bool :=
  Nat.eqb (Invoice.deal_id i) deal_id.
Definition by_invoice_token (token : string) (r : Receipt.t) : bool :=
  String.eqb (Receipt.invoice_token r) token.

(** Truth value of the result of a [find_one]: a document is a dictionary
    with at least its [_id], hence true; [None] is false. *)
Definition found {A} (o : option A) : bool :=
  match o with Some _ => true | None => false end.

(** The inner function [mou_status()] *)
Definition mou_status (mou : option (Stored Mou.t)) : StatusLink.t :=
  match mou with
  | None => {| StatusLink.status := "Draft"; StatusLink.link := None |}
  | Some m =>
      {| StatusLink.status := capitalize (Mou.status (doc m));
         StatusLink.link :=
           if str_truthy (Mou.sign_token (doc m))
           then Some (String.append "/sign/" (Mou.sign_token (doc m)))
           else None |}
  end.

(** The inner function [invoice_status()] *)
Definition invoice_status (invoice : option (Stored Invoice.t)) : StatusLink.t :=
  match invoice with
  | None => {| StatusLink.status := "Draft"; StatusLink.link := None |}
  | Some i =>
      {| StatusLink.status := capitalize (Invoice.status (doc i));
         StatusLink.link :=
           if str_truthy (Invoice.view_token (doc i))
           then Some (String.append "/invoice/" (Invoice.view_token (doc i)))
           else None |}
  end.

(** [GET /api/deal/snapshot].  A document that [find_one] returns has its
    [_id], so that [deal_id] is [str(deal["_id"])]; stored MOUs and
    invoices have all the fields of their model, so that the defaults of
    [mou.get("status", "draft")] and [invoice.get("status", "draft")] are
    not used. *)
Definition deal_snapshot (client_name project_name : string) : M Snapshot.t :=
  let* deal := find_one c_deal (by_names client_name project_name) in
  match deal with
  | None => raise (HTTPException 404 "Deal not found")
  | Some dl =>
      let deal_id := _id dl in
      let* mou := find_one_sorted c_mou (mou_by_deal_id deal_id) in
      let* invoice := find_one_sorted c_invoice (invoice_by_deal_id deal_id) in
      let* receipt :=
        match invoice with
        | Some i =>
            find_one_sorted c_receipt
              (by_invoice_token (Invoice.view_token (doc i)))
        | None => ret None
        end in
      let ms := lower (StatusLink.status (mou_status mou)) in
      let ins := lower (StatusLink.status (invoice_status invoice)) in
      let hint :=
        if String.eqb ms "draft"
        then "Next: Generate sign link and send to client."
        else if String.eqb ms "signed" && String.eqb ins "draft"
        then "Next: Generate invoice and send."
        else if String.eqb ins "paid" && negb (found receipt)
        then "Next: Generate receipt and send."
        else "" in
      ret {| Snapshot.client_name := client_name;
             Snapshot.project_name := project_name;
             Snapshot.mou := mou_status mou;
             Snapshot.invoice := invoice_status invoice;
             Snapshot.receipt_available := found receipt;
             Snapshot.next_step := hint |}
  end.

(** [GET /] *)
Definition read_root : M string := ret "Deal Admin Hub Backend".

(** ** Diagnostics endpoint *)


Module TestResponse.
Record t := mk {
  backend : string;
  database : string;
  database_url : option string;
  database_name : option string;
  connection_status : string;
  collections : list string
}.
End TestResponse.





(** ** The system as a transition system

    A request is one call of a handler.  [GET /test] only lists the names
    of the collections, so that it appears here with its effect on the
    store, which is none. *)

Inductive Request : Type :=
| ReadRoot
| TestDatabase
| CreateMou (payload : CreateMouRequest.t)
| GetMouByToken (token : string)
| SignMou (token : string) (payload : SignMouRequest.t)
| CreateInvoice (payload : CreateInvoiceRequest.t)
| GetInvoiceByToken (token : string)
| MarkInvoicePaid (token : string) (payload : MarkPaidRequest.t)
| DealSnapshot (client_name project_name : string).

(** The store after a request has been served, whether it succeeded or
    raised. *)
Definition handle (env : Env) (r : Request) (s : Store) : Store :=
  match r with
  | ReadRoot => snd (read_root s)
  | TestDatabase => s
  | CreateMou payload => snd (create_mou env payload s)
  | GetMouByToken token => snd (get_mou_by_token token s)
  | SignMou token payload => snd (sign_mou env token payload s)
  | CreateInvoice payload => snd (create_invoice env payload s)
  | GetInvoiceByToken token => snd (get_invoice_by_token token s)
  | MarkInvoicePaid token payload => snd (mark_invoice_paid env token payload s)
  | DealSnapshot client_name project_name =>
      snd (deal_snapshot client_name project_name s)
  end.

(** The stores the handlers can produce, starting from the empty store. *)
Inductive reachable : Store -> Prop :=
| reachable_empty : reachable empty_store
| reachable_step s env r : reachable s -> reachable (handle env r s).

(** A run: the requests served, first to last, each with its environment. *)
Fixpoint run (reqs : list (Env * Request)) (s : Store) : Store :=
  match reqs with
  | [] => s
  | (env, r) :: rest => run rest (handle env r s)
  end.

(** * Vocabulary of the statements *)

(** [first_match f l d]: [d] is the first element of [l] that satisfies
    [f]. *)
Definition first_match {A} (f : A -> bool) (l : list A) (d : A) : Prop :=
  exists l1 l2, l = l1 ++ d :: l2 /\ f d = true /\
                Forall (fun x => f x = false) l1.

(** [latest_of P l o]: [o] is a most recently created document of [l]
    among those that satisfy [P], and is [None] when there is none. *)
Definition latest_of {A} (P : Stored A -> Prop) (l : list (Stored A))
  (o : option (Stored A)) : Prop :=
  match o with
  | None => forall x, x ∈ l -> ~ P x
  | Some d =>
      d ∈ l /\ P d /\ forall e, e ∈ l -> P e -> created_at e <= created_at d
  end.

(** [collection.find_one({"_id": oid})] on the documents of a collection:
    what an identifier resolves to. *)
Definition find_by_id {A} (oid : ObjectId) (l : list (Stored A))
  : option (Stored A) :=
  List.find (fun d => Nat.eqb (_id d) oid) l.

(** A deal with the status "active". *)
Definition deal_active (d : Stored Deal.t) : Prop :=
  Deal.status (doc d) = "active".

(** A deal whose names are the pair of the request. *)
Definition deal_matches (cn pn : string) (d : Stored Deal.t) : Prop :=
  Deal.client_name (doc d) = cn /\ Deal.project_name (doc d) = pn.

(** The first deal, in insertion order, whose names are the pair. *)
Definition first_deal (cn pn : string) (l : list (Stored Deal.t))
  (d : Stored Deal.t) : Prop :=
  exists l1 l2, l = l1 ++ d :: l2 /\ deal_matches cn pn d /\
                forall x, x ∈ l1 -> ~ deal_matches cn pn x.

(** The three hints of the snapshot. *)
Definition hint_sign : string := "Next: Generate sign link and send to client.".
Definition hint_invoice : string := "Next: Generate invoice and send.".
Definition hint_receipt : string := "Next: Generate receipt and send.".



(** The receipt that the mark-paid handler builds. *)
Definition receipt_of (env : Env) (token : string)
  (payload : MarkPaidRequest.t) (i : Invoice.t) : Receipt.t :=
  {| Receipt.invoice_token := token;
     Receipt.deal_id := Invoice.deal_id i;
     Receipt.my_details := Invoice.my_details i;
     Receipt.client_name := Invoice.client_name i;
     Receipt.project_name := Invoice.project_name i;
     Receipt.invoice_number := Invoice.invoice_number i;
     Receipt.original_amount := Invoice.amount i;
     Receipt.amount_paid := MarkPaidRequest.amount_received payload;
     Receipt.payment_date := payment_date_of env payload;
     Receipt.payment_method := MarkPaidRequest.payment_method payload;
     Receipt.payment_reference := MarkPaidRequest.payment_reference payload |}.

(** ** Sample requests and stores *)

Definition env0 : Env :=
  mkEnv "a3f1c2" "2024-05-01T10:00:00" "2024-05-01" 10 11.
Definition env1 : Env :=
  mkEnv "b7d4e9" "2024-05-02T09:30:00" "2024-05-02" 20 21.
Definition env2 : Env :=
  mkEnv "c0ffee" "2024-05-03T08:15:00" "2024-05-03" 30 31.

Definition acme_mou : CreateMouRequest.t :=
  CreateMouRequest.mk
    {[ "name" := JStr "59 Shift" ]}
    {[ "client_name" := JStr "Acme" ]}
    {[ "name" := JStr "Website" ]}
    {[ "fee" := JInt 500 ]}.


Definition sign_bob : SignMouRequest.t := SignMouRequest.mk "Bob" "CEO" true.

Definition acme_invoice : CreateInvoiceRequest.t :=
  CreateInvoiceRequest.mk ∅ "Acme" "Website" "INV-1" "2024-05-02" None
    500%float "EUR" ∅ "REF-1".

Definition paid_500 : MarkPaidRequest.t :=
  MarkPaidRequest.mk (Some "2024-05-04") "wire" 500%float "REF-1".

Definition paid_no_date : MarkPaidRequest.t :=
  MarkPaidRequest.mk (Some "") "wire" 500%float "REF-1".

(** A payload whose client name is a list, next to a usable "name". *)
Definition listed_mou : CreateMouRequest.t :=
  CreateMouRequest.mk ∅
    {[ "client_name" := JArr [JStr "Acme"]; "name" := JStr "Acme" ]}
    {[ "name" := JStr "Website" ]} ∅.

(** A payload whose client name is the number zero, next to a "name". *)
Definition zero_mou : CreateMouRequest.t :=
  CreateMouRequest.mk ∅
    {[ "client_name" := JInt 0; "name" := JStr "Acme" ]}
    {[ "name" := JStr "Website" ]} ∅.

(** The store after an MOU was created for Acme's website, and after it was
    signed. *)
Definition store_mou : Store := handle env0 (CreateMou acme_mou) empty_store.
Definition store_signed : Store := handle env1 (SignMou "a3f1c2" sign_bob) store_mou.

(** The store after an invoice was created on the empty store. *)
Definition store_invoice : Store :=
  handle env1 (CreateInvoice acme_invoice) empty_store.

(** The store after the whole scenario: MOU created and signed, invoice
    created and paid. *)
Definition store_paid : Store :=
  run [(env0, CreateMou acme_mou);
       (env1, SignMou "a3f1c2" sign_bob);
       (env1, CreateInvoice acme_invoice);
       (env2, MarkInvoicePaid "b7d4e9" paid_500)] empty_store.


(** ** Statuses in the stores the handlers produce *)

Definition mou_status_ok (m : Stored Mou.t) : Prop :=
  Mou.status (doc m) = "sent" \/ Mou.status (doc m) = "signed".

Definition invoice_status_ok (i : Stored Invoice.t) : Prop :=
  Invoice.status (doc i) = "sent" \/ Invoice.status (doc i) = "paid".

Definition statuses_ok (s : Store) : Prop :=
  Forall mou_status_ok (db_mou s) /\ Forall invoice_status_ok (db_invoice s).

(** The signature fields of an MOU are not set. *)
Definition unsigned (m : Mou.t) : Prop :=
  Mou.signed_at m = None /\ Mou.client_signature_name m = None /\
  Mou.client_signature_title m = None.

(** ** The names of the deal of an MOU *)


(** An optional entry: missing, [null] or a string. *)
Definition optional_str (b : Blob) (k : string) : Prop :=
  b !! k = None \/ b !! k = Some JNull \/ exists v, b !! k = Some (JStr v).


(** The project name that the project blob gives: the string under "name",
    and the empty string without this key. *)
Definition project_name_from (pj : Blob) (pn : string) : Prop :=
  pj !! "name" = Some (JStr pn) \/ (pj !! "name" = None /\ pn = "").

(** ** Vocabulary for the remaining handlers *)

(** [first_with P l l1 d l2]: [l] is [l1], then [d], then [l2], and [d] is
    the first element of [l] that satisfies [P]. *)
Definition first_with {A} (P : A -> Prop) (l l1 : list A) (d : A)
  (l2 : list A) : Prop :=
  l = l1 ++ d :: l2 /\ P d /\ forall x, x ∈ l1 -> ~ P x.

(** [m'] is [m] after a sign request: the same document, in which only the
    status and the three signature fields were written. *)
Definition signed_from (env : Env) (payload : SignMouRequest.t)
  (m m' : Stored Mou.t) : Prop :=
  _id m' = _id m /\ created_at m' = created_at m /\
  Mou.deal_id (doc m') = Mou.deal_id (doc m) /\
  Mou.my_details (doc m') = Mou.my_details (doc m) /\
  Mou.client_details (doc m') = Mou.client_details (doc m) /\
  Mou.project (doc m') = Mou.project (doc m) /\
  Mou.terms (doc m') = Mou.terms (doc m) /\
  Mou.sign_token (doc m') = Mou.sign_token (doc m) /\
  Mou.status (doc m') = "signed" /\
  Mou.signed_at (doc m') = Some (utcnow_iso env) /\
  Mou.client_signature_name (doc m') = Some (SignMouRequest.name payload) /\
  Mou.client_signature_title (doc m') = Some (SignMouRequest.title payload).

(** The MOU that MOU creation stores for a payload. *)
Definition mou_of_request (env : Env) (p : CreateMouRequest.t)
  (deal_id : ObjectId) (m : Mou.t) : Prop :=
  Mou.deal_id m = deal_id /\
  Mou.my_details m = CreateMouRequest.my_details p /\
  Mou.client_details m = CreateMouRequest.client_details p /\
  Mou.project m = CreateMouRequest.project p /\
  Mou.terms m = CreateMouRequest.terms p /\
  Mou.status m = "sent" /\
  Mou.sign_token m = uuid4_hex env /\
  unsigned m.

(** The fields of an invoice that identify it: all but the status and the
    three payment fields. *)
Definition same_invoice (i i' : Invoice.t) : Prop :=
  Invoice.deal_id i' = Invoice.deal_id i /\
  Invoice.my_details i' = Invoice.my_details i /\
  Invoice.client_name i' = Invoice.client_name i /\
  Invoice.project_name i' = Invoice.project_name i /\
  Invoice.invoice_number i' = Invoice.invoice_number i /\
  Invoice.invoice_date i' = Invoice.invoice_date i /\
  Invoice.due_date i' = Invoice.due_date i /\
  Invoice.amount i' = Invoice.amount i /\
  Invoice.currency i' = Invoice.currency i /\
  Invoice.bank_details i' = Invoice.bank_details i /\
  Invoice.payment_reference i' = Invoice.payment_reference i /\
  Invoice.view_token i' = Invoice.view_token i.

(** The invoice that invoice creation stores for a payload. *)
Definition invoice_of_request (env : Env) (q : CreateInvoiceRequest.t)
  (i : Invoice.t) : Prop :=
  Invoice.my_details i = CreateInvoiceRequest.my_details q /\
  Invoice.client_name i = CreateInvoiceRequest.client_name q /\
  Invoice.project_name i = CreateInvoiceRequest.project_name q /\
  Invoice.invoice_number i = CreateInvoiceRequest.invoice_number q /\
  Invoice.invoice_date i = CreateInvoiceRequest.invoice_date q /\
  Invoice.due_date i = CreateInvoiceRequest.due_date q /\
  Invoice.amount i = CreateInvoiceRequest.amount q /\
  Invoice.currency i = CreateInvoiceRequest.currency q /\
  Invoice.bank_details i = CreateInvoiceRequest.bank_details q /\
  Invoice.payment_reference i = CreateInvoiceRequest.payment_reference q /\
  Invoice.status i = "sent" /\
  Invoice.view_token i = uuid4_hex env /\
  Invoice.paid_at i = None /\
  Invoice.payment_method i = None /\
  Invoice.amount_received i = None.

(** [i'] is [i] after a mark-paid request: the same invoice with the status
    "paid" and the payment fields of the request. *)
Definition paid_from (pd : string) (payload : MarkPaidRequest.t)
  (i i' : Stored Invoice.t) : Prop :=
  _id i' = _id i /\ created_at i' = created_at i /\
  same_invoice (doc i) (doc i') /\
  Invoice.status (doc i') = "paid" /\
  Invoice.paid_at (doc i') = Some pd /\
  Invoice.payment_method (doc i')
  = Some (MarkPaidRequest.payment_method payload) /\
  Invoice.amount_received (doc i')
  = Some (MarkPaidRequest.amount_received payload).

(** The receipt of an invoice and a mark-paid request: the invoice fields
    are copied from the invoice, the payment fields from the request. *)
Definition receipt_from (token pd : string) (payload : MarkPaidRequest.t)
  (i : Invoice.t) (r : Receipt.t) : Prop :=
  Receipt.invoice_token r = token /\
  Receipt.deal_id r = Invoice.deal_id i /\
  Receipt.my_details r = Invoice.my_details i /\
  Receipt.client_name r = Invoice.client_name i /\
  Receipt.project_name r = Invoice.project_name i /\
  Receipt.invoice_number r = Invoice.invoice_number i /\
  Receipt.original_amount r = Invoice.amount i /\
  Receipt.amount_paid r = MarkPaidRequest.amount_received payload /\
  Receipt.payment_date r = pd /\
  Receipt.payment_method r = MarkPaidRequest.payment_method payload /\
  Receipt.payment_reference r = MarkPaidRequest.payment_reference payload.

(** ** References between the collections *)

(** Every MOU refers to a stored deal. *)
Definition mous_have_deal (s : Store) : Prop :=
  forall m, m ∈ db_mou s ->
    exists d, d ∈ db_deal s /\ _id d = Mou.deal_id (doc m).

(** Every invoice refers to a stored deal, which has the names that the
    invoice carries. *)
Definition invoices_have_deal (s : Store) : Prop :=
  forall i, i ∈ db_invoice s ->
    exists d, d ∈ db_deal s /\ _id d = Invoice.deal_id (doc i) /\
              deal_matches (Invoice.client_name (doc i))
                (Invoice.project_name (doc i)) d.

(** Every receipt carries the token of a stored invoice, and the deal, the
    names, the number and the amount of this invoice. *)
Definition receipts_have_invoice (s : Store) : Prop :=
  forall r, r ∈ db_receipt s ->
    exists i, i ∈ db_invoice s /\
              Invoice.view_token (doc i) = Receipt.invoice_token (doc r) /\
              Invoice.deal_id (doc i) = Receipt.deal_id (doc r) /\
              Invoice.client_name (doc i) = Receipt.client_name (doc r) /\
              Invoice.project_name (doc i) = Receipt.project_name (doc r) /\
              Invoice.invoice_number (doc i)
              = Receipt.invoice_number (doc r) /\
              Invoice.amount (doc i) = Receipt.original_amount (doc r).

(** Every paid invoice has a receipt for its token. *)
Definition paid_have_receipt (s : Store) : Prop :=
  forall i, i ∈ db_invoice s -> Invoice.status (doc i) = "paid" ->
    exists r, r ∈ db_receipt s /\
              Receipt.invoice_token (doc r) = Invoice.view_token (doc i).

(** The four properties together. *)
Definition integrity (s : Store) : Prop :=
  mous_have_deal s /\ invoices_have_deal s /\ receipts_have_invoice s /\
  paid_have_receipt s.

(** * Properties *)

(** ** Lists of documents *)

Section Lookups.
Context {A : Type}.
Implicit Types (l : list (Stored A)) (d e : Stored A) (f : Stored A -> bool).


Lemma find_first_match f l d : List.find f l = Some d -> first_match f l d.
Proof.
  induction l as [|x l IH]; simpl; [discriminate|].
  destruct (f x) eqn:Hx.
  - intros [= ->]. exists [], l. auto.
  - intros H. destruct (IH H) as (l1 & l2 & -> & Hd & Hall).
    exists (x :: l1), l2. auto.
Qed.

Lemma find_none_iff f l :
  List.find f l = None <-> forall x, x ∈ l -> f x = false.
Proof.
  split.
  - intros H x Hx. apply (List.find_none f l H). by apply list_elem_of_In.
  - induction l as [|x l IH]; simpl; [done|]. intros H.
    rewrite (H x) by constructor. apply IH. intros y Hy. apply H. by constructor.
Qed.

Lemma first_match_find f l d : first_match f l d -> List.find f l = Some d.
Proof.
  intros (l1 & l2 & -> & Hd & Hall). induction Hall as [|x l1 Hx _ IH]; simpl.
  - by rewrite Hd.
  - by rewrite Hx.
Qed.

Lemma first_match_elem f l d : first_match f l d -> d ∈ l /\ f d = true.
Proof.
  intros (l1 & l2 & -> & Hd & _). split; [|done].
  apply elem_of_app. right. constructor.
Qed.

Lemma latest_None l : latest l = None <-> l = [].
Proof.
  destruct l as [|d r]; simpl; [done|].
  destruct (latest r); [destruct (Nat.ltb _ _)|]; done.
Qed.

Lemma latest_Some l d :
  latest l = Some d ->
  d ∈ l /\ forall e, e ∈ l -> created_at e <= created_at d.
Proof.
  revert d. induction l as [|x r IH]; simpl; [discriminate|]. intros d.
  destruct (latest r) as [m|] eqn:Hm.
  - destruct (IH m eq_refl) as [Hin Hmax].
    destruct (Nat.ltb_spec (created_at x) (created_at m)); intros [= <-].
    + split; [by constructor|]. intros e [->|He]%elem_of_cons; [lia|auto].
    + split; [constructor|]. intros e [->|He]%elem_of_cons; [lia|].
      specialize (Hmax e He). lia.
  - apply latest_None in Hm as ->. intros [= <-]. split; [constructor|].
    intros e [->|He]%elem_of_cons; [lia|]. by apply elem_of_nil in He.
Qed.

Lemma latest_filter_spec f (P : Stored A -> Prop) l :
  (forall x, f x = true <-> P x) ->
  latest_of P l (latest (List.filter f l)).
Proof.
  intros HfP. destruct (latest (List.filter f l)) as [d|] eqn:Hl; simpl.
  - apply latest_Some in Hl as [Hin Hmax].
    apply list_elem_of_In, List.filter_In in Hin as [Hin Hf].
    split; [by apply list_elem_of_In|]. split; [by apply HfP|].
    intros e He HPe. apply Hmax, list_elem_of_In, List.filter_In.
    split; [by apply list_elem_of_In|by apply HfP].
  - apply latest_None in Hl. intros x Hx HPx.
    assert (List.In x (List.filter f l)) as Hin.
    { apply List.filter_In. split; [by apply list_elem_of_In|by apply HfP]. }
    rewrite Hl in Hin. destruct Hin.
Qed.

End Lookups.

(** ** Unfolding the handlers *)

Ltac unfold_monad :=
  unfold bind, ret, raise, lift, find_one, find_one_sorted, update_one,
    find_one_and_update, create_document in *.

Ltac unfold_handlers :=
  unfold handle, read_root, create_mou, get_mou_by_token, sign_mou,
    create_invoice, get_invoice_by_token, mark_invoice_paid, deal_snapshot
    in *.

Lemma Deal_new_status a b c d e dl :
  Deal_new a b c d e = inr dl -> Deal.status dl = "active".
Proof.
  unfold Deal_new. repeat case_match; try discriminate. by intros [= <-].
Qed.

(** ** Signing without agreement *)

(** C7: a sign request with [agree = false] raises the 400 error and leaves
    the store as it was, whatever the token and the store. *)
Theorem sign_mou_without_agreement env token name title s :
  sign_mou env token (SignMouRequest.mk name title false) s
  = (inl (HTTPException 400 "Agreement checkbox is required"), s).
Proof. reflexivity. Qed.

(** ** Deals are only ever inserted *)


Lemma handle_deals env r s :
  db_deal (handle env r s) = db_deal s
  \/ exists dl,
       db_deal (handle env r s) = db_deal s ++ [dl] /\
       deal_active dl /\
       ((exists payload, r = CreateMou payload) \/
        (exists payload, r = CreateInvoice payload)).
Proof.
  destruct r; unfold_handlers; unfold_monad; simpl;
    repeat (case_match; simpl in *; simplify_eq);
    first [ by left
          | right; eexists; split; [reflexivity|]; split;
            [unfold deal_active; simpl; eauto using Deal_new_status
            |eauto] ].
Qed.

(** C10: a request leaves the stored deals in place and unchanged; it adds
    at most one deal, only when it is an MOU creation or an invoice
    creation, and this deal has the status "active".  Hence, whatever
    requests are served, in whatever order and from whatever store, the
    deals stored before are all still there afterwards, unchanged, followed
    by new deals that all have the status "active". *)
Theorem deals_immutable (reqs : list (Env * Request)) env r (s : Store) :
  (db_deal (handle env r s) = db_deal s
   \/ exists dl,
        db_deal (handle env r s) = db_deal s ++ [dl] /\
        deal_active dl /\
        ((exists payload, r = CreateMou payload) \/
         (exists payload, r = CreateInvoice payload)))
  /\
  (exists new, db_deal (run reqs s) = db_deal s ++ new /\
               Forall deal_active new).
Proof.
  split; [apply handle_deals|]. clear env r.
  revert s. induction reqs as [|[env r] reqs IH]; intros s; simpl.
  - exists []. by rewrite app_nil_r.
  - destruct (IH (handle env r s)) as (new2 & -> & H2).
    destruct (handle_deals env r s) as [->|(dl & -> & Hdl & _)].
    + by exists new2.
    + exists (dl :: new2). rewrite <- app_assoc. split; [done|].
      by constructor.
Qed.

(** ** Identifiers *)


Lemma max_id_ge {A} (l : list (Stored A)) d : d ∈ l -> _id d <= max_id l.
Proof.
  induction 1 as [d l|d x l _ IH]; simpl; lia.
Qed.

Lemma fresh_oid_deal s d : d ∈ db_deal s -> _id d < fresh_oid s.
Proof. intros H%max_id_ge. unfold fresh_oid. lia. Qed.

Lemma fresh_oid_mou s d : d ∈ db_mou s -> _id d < fresh_oid s.
Proof. intros H%max_id_ge. unfold fresh_oid. lia. Qed.

Lemma fresh_oid_invoice s d : d ∈ db_invoice s -> _id d < fresh_oid s.
Proof. intros H%max_id_ge. unfold fresh_oid. lia. Qed.

Lemma fresh_oid_receipt s d : d ∈ db_receipt s -> _id d < fresh_oid s.
Proof. intros H%max_id_ge. unfold fresh_oid. lia. Qed.

Lemma find_app_last {A} (f : A -> bool) (l : list A) x :
  (forall y, y ∈ l -> f y = false) -> f x = true ->
  List.find f (l ++ [x]) = Some x.
Proof.
  intros Hl Hx. induction l as [|y l IH]; simpl.
  - by rewrite Hx.
  - rewrite (Hl y) by constructor. apply IH. intros z Hz. apply Hl.
    by constructor.
Qed.

Lemma find_by_id_new {A} (l : list (Stored A)) (x : Stored A) :
  (forall d, d ∈ l -> _id d < _id x) ->
  find_by_id (_id x) (l ++ [x]) = Some x.
Proof.
  intros H. apply find_app_last.
  - intros y Hy. apply Nat.eqb_neq. specialize (H y Hy). lia.
  - apply Nat.eqb_refl.
Qed.

(** ** Filters *)

Lemma by_names_true cn pn d :
  by_names cn pn d = true <->
  Deal.client_name d = cn /\ Deal.project_name d = pn.
Proof.
  unfold by_names. rewrite andb_true_iff, !String.eqb_eq. done.
Qed.

Lemma by_names_false cn pn d :
  by_names cn pn d = false <->
  ~ (Deal.client_name d = cn /\ Deal.project_name d = pn).
Proof.
  rewrite <- by_names_true. destruct (by_names cn pn d); naive_solver.
Qed.

Lemma by_view_token_true token i :
  by_view_token token i = true <-> Invoice.view_token i = token.
Proof. apply String.eqb_eq. Qed.

Lemma by_sign_token_true token m :
  by_sign_token token m = true <-> Mou.sign_token m = token.
Proof. apply String.eqb_eq. Qed.


Lemma find_first_deal cn pn l d :
  List.find (fun d => by_names cn pn (doc d)) l = Some d <->
  first_deal cn pn l d.
Proof.
  split.
  - intros (l1 & l2 & -> & Hd & Hall)%find_first_match.
    exists l1, l2. split; [done|]. split; [by apply by_names_true|].
    intros x Hx. rewrite Forall_forall in Hall.
    by apply by_names_false, Hall.
  - intros (l1 & l2 & -> & Hd & Hall). apply first_match_find.
    exists l1, l2. split; [done|]. split; [by apply by_names_true|].
    apply Forall_forall. intros x Hx. by apply by_names_false, Hall.
Qed.

Lemma find_no_deal cn pn l :
  List.find (fun d => by_names cn pn (doc d)) l = None <->
  forall d, d ∈ l -> ~ deal_matches cn pn d.
Proof.
  rewrite find_none_iff. split; intros H d Hd.
  - by apply by_names_false, H.
  - by apply by_names_false, H.
Qed.

Lemma first_deal_exists cn pn l d :
  d ∈ l -> deal_matches cn pn d -> exists d0, first_deal cn pn l d0.
Proof.
  intros Hd Hm.
  destruct (List.find (fun d => by_names cn pn (doc d)) l) as [d0|] eqn:Hf.
  - exists d0. by apply find_first_deal.
  - exfalso. by apply (proj1 (find_no_deal cn pn l) Hf d).
Qed.

(** ** Invoice creation and deals *)

Lemma create_invoice_existing env (payload : CreateInvoiceRequest.t) s d0 :
  first_deal (CreateInvoiceRequest.client_name payload)
    (CreateInvoiceRequest.project_name payload) (db_deal s) d0 ->
  exists inv,
    create_invoice env payload s
    = (inr (CreateInvoiceResponse.mk (_id inv) (uuid4_hex env)),
       mkStore (db_deal s) (db_mou s) (db_invoice s ++ [inv]) (db_receipt s))
    /\ Invoice.deal_id (doc inv) = _id d0
    /\ Invoice.status (doc inv) = "sent"
    /\ Invoice.view_token (doc inv) = uuid4_hex env.
Proof.
  intros Hfind%find_first_deal. unfold create_invoice. unfold_monad. simpl.
  rewrite Hfind. simpl. eexists (mkStored _ _ _). split; [reflexivity|]. done.
Qed.

Lemma create_invoice_fresh env (payload : CreateInvoiceRequest.t) s :
  (forall d, d ∈ db_deal s ->
     ~ deal_matches (CreateInvoiceRequest.client_name payload)
         (CreateInvoiceRequest.project_name payload) d) ->
  exists dl inv,
    create_invoice env payload s
    = (inr (CreateInvoiceResponse.mk (_id inv) (uuid4_hex env)),
       mkStore (db_deal s ++ [dl]) (db_mou s) (db_invoice s ++ [inv])
         (db_receipt s))
    /\ _id dl = fresh_oid s
    /\ doc dl = Deal_of_names (CreateInvoiceRequest.client_name payload)
                 (CreateInvoiceRequest.project_name payload)
    /\ Invoice.deal_id (doc inv) = _id dl
    /\ Invoice.status (doc inv) = "sent"
    /\ Invoice.view_token (doc inv) = uuid4_hex env.
Proof.
  intros Hnone%find_no_deal. unfold create_invoice. unfold_monad. simpl.
  rewrite Hnone. simpl. eexists (mkStored _ _ _), (mkStored _ _ _).
  split; [reflexivity|]. done.
Qed.

(** C4: when a stored deal has the names of the request, invoice creation
    succeeds, leaves the deals as they are and gives the new invoice the
    identifier of the first such deal; when no stored deal has them, it
    adds exactly one deal, with these names and a new identifier, and the
    new invoice refers to it. *)
Theorem create_invoice_deal env (payload : CreateInvoiceRequest.t) s :
  let cn := CreateInvoiceRequest.client_name payload in
  let pn := CreateInvoiceRequest.project_name payload in
  let s' := snd (create_invoice env payload s) in
  ((exists d, d ∈ db_deal s /\ deal_matches cn pn d) ->
   db_deal s' = db_deal s /\
   exists d0 inv,
     first_deal cn pn (db_deal s) d0 /\
     db_invoice s' = db_invoice s ++ [inv] /\
     Invoice.deal_id (doc inv) = _id d0 /\
     fst (create_invoice env payload s)
     = inr (CreateInvoiceResponse.mk (_id inv) (uuid4_hex env)))
  /\
  ((forall d, d ∈ db_deal s -> ~ deal_matches cn pn d) ->
   exists dl inv,
     db_deal s' = db_deal s ++ [dl] /\
     deal_matches cn pn dl /\
     (forall d, d ∈ db_deal s -> _id d <> _id dl) /\
     db_invoice s' = db_invoice s ++ [inv] /\
     Invoice.deal_id (doc inv) = _id dl /\
     fst (create_invoice env payload s)
     = inr (CreateInvoiceResponse.mk (_id inv) (uuid4_hex env))).
Proof.
  intros cn pn s'. subst s'. split.
  - intros (d & Hd & Hm).
    destruct (first_deal_exists cn pn _ d Hd Hm) as [d0 Hd0].
    destruct (create_invoice_existing env payload s d0 Hd0)
      as (inv & -> & Hid & _).
    simpl. split; [done|]. by exists d0, inv.
  - intros Hnone.
    destruct (create_invoice_fresh env payload s Hnone)
      as (dl & inv & -> & Hdl & Hdoc & Hid & _).
    simpl. exists dl, inv. split; [done|].
    split; [unfold deal_matches; by rewrite Hdoc|].
    split; [|done]. intros d Hd%fresh_oid_deal. lia.
Qed.

Lemma create_invoice_deal_witness :
  db_deal (snd (create_invoice env1 acme_invoice store_mou)) = db_deal store_mou
  /\ exists dl,
       db_deal (snd (create_invoice env1 acme_invoice empty_store)) = [dl].
Proof.
  split.
  - apply (proj1 (create_invoice_deal env1 acme_invoice store_mou)).
    eexists. split; [vm_compute; constructor|]. split; reflexivity.
  - destruct (proj2 (create_invoice_deal env1 acme_invoice empty_store))
      as (dl & inv & Hdl & _).
    + intros d Hd. by apply elem_of_nil in Hd.
    + by exists dl.
Defined.

(** ** The snapshot *)

Lemma to_lower_to_upper c : to_lower (to_upper c) = to_lower c.
Proof. destruct c as [[] [] [] [] [] [] [] []]; reflexivity. Qed.

Lemma to_lower_idem c : to_lower (to_lower c) = to_lower c.
Proof. destruct c as [[] [] [] [] [] [] [] []]; reflexivity. Qed.

Lemma lower_idem s : lower (lower s) = lower s.
Proof. induction s as [|c s IH]; simpl; [done|]. by rewrite to_lower_idem, IH. Qed.

(** Lowercasing the capitalized status gives the lowercased status. *)
Lemma lower_capitalize s : lower (capitalize s) = lower s.
Proof.
  destruct s as [|c s]; simpl; [done|]. by rewrite to_lower_to_upper, lower_idem.
Qed.


Lemma str_truthy_true s : str_truthy s = true <-> s <> "".
Proof.
  unfold str_truthy. destruct (String.eqb_spec s ""); naive_solver.
Qed.




Lemma found_latest_receipt token (l : list (Stored Receipt.t)) :
  found (latest (List.filter (fun r => by_invoice_token token (doc r)) l)) = true
  <-> exists r, r ∈ l /\ Receipt.invoice_token (doc r) = token.
Proof.
  pose proof (latest_filter_spec (fun r => by_invoice_token token (doc r))
                (fun r => Receipt.invoice_token (doc r) = token) l) as H.
  destruct (latest _) as [r|]; simpl in *.
  - destruct H as (Hin & Hr & _); [intros x; apply String.eqb_eq|]. naive_solver.
  - split; [done|]. intros (r & Hin & Hr). exfalso.
    eapply H; [intros x; apply String.eqb_eq|done..].
Qed.




(** ** MOU creation *)

(** The deal that MOU creation builds from a payload. *)
Lemma create_mou_inr env (p : CreateMouRequest.t) s r s1 :
  create_mou env p s = (inr r, s1) ->
  exists dl m,
    Deal_new
      (py_or (dict_get (CreateMouRequest.client_details p) "client_name")
         (dict_get_default (CreateMouRequest.client_details p) "name"
            (JStr "")))
      (dict_get (CreateMouRequest.client_details p) "company")
      (dict_get (CreateMouRequest.client_details p) "contact")
      (dict_get_default (CreateMouRequest.project p) "name" (JStr ""))
      (dict_get (CreateMouRequest.project p) "description") = inr (doc dl)
    /\ s1 = mkStore (db_deal s ++ [dl]) (db_mou s ++ [m]) (db_invoice s)
              (db_receipt s)
    /\ _id dl = fresh_oid s
    /\ r = CreateMouResponse.mk (_id m) (uuid4_hex env)
    /\ Mou.deal_id (doc m) = _id dl
    /\ Mou.status (doc m) = "sent"
    /\ Mou.sign_token (doc m) = uuid4_hex env
    /\ Mou.signed_at (doc m) = None
    /\ Mou.client_signature_name (doc m) = None
    /\ Mou.client_signature_title (doc m) = None.
Proof.
  unfold create_mou. unfold_monad. simpl.
  destruct (Deal_new _ _ _ _ _) as [e|d] eqn:Hd; simpl; [discriminate|].
  intros [= <- <-]. eexists (mkStored _ _ _), (mkStored _ _ _). simpl.
  split; [reflexivity|]. split; [reflexivity|]. done.
Qed.

Lemma create_mou_inl env (p : CreateMouRequest.t) s e s1 :
  create_mou env p s = (inl e, s1) -> s1 = s.
Proof.
  unfold create_mou. unfold_monad. simpl.
  destruct (Deal_new _ _ _ _ _) as [e'|d] eqn:Hd; simpl; [|discriminate].
  by intros [= _ <-].
Qed.

Lemma first_deal_unique cn pn l d1 d2 :
  first_deal cn pn l d1 -> first_deal cn pn l d2 -> d1 = d2.
Proof.
  intros H1%find_first_deal H2%find_first_deal. congruence.
Qed.

Lemma first_deal_app_last cn pn l d :
  (forall x, x ∈ l -> ~ deal_matches cn pn x) -> deal_matches cn pn d ->
  first_deal cn pn (l ++ [d]) d.
Proof.
  intros Hl Hd. exists l, []. done.
Qed.

(** C3, amended: a successful MOU creation always appends a new deal, under
    an identifier that no stored deal has, and the new MOU refers to it.
    An invoice creation that follows with the names of this deal creates no
    deal: it reuses the first stored deal with these names, which is the
    deal of the MOU when no earlier deal has them. *)
Theorem mou_deal_reused_by_invoice env (p : CreateMouRequest.t) s r s1 :
  create_mou env p s = (inr r, s1) ->
  exists dl m,
    db_deal s1 = db_deal s ++ [dl] /\
    (forall d, d ∈ db_deal s -> _id d <> _id dl) /\
    db_mou s1 = db_mou s ++ [m] /\
    Mou.deal_id (doc m) = _id dl /\
    forall env' (q : CreateInvoiceRequest.t),
      let cn := CreateInvoiceRequest.client_name q in
      let pn := CreateInvoiceRequest.project_name q in
      let s2 := snd (create_invoice env' q s1) in
      deal_matches cn pn dl ->
      db_deal s2 = db_deal s1 /\
      exists d0 inv,
        first_deal cn pn (db_deal s1) d0 /\
        db_invoice s2 = db_invoice s1 ++ [inv] /\
        Invoice.deal_id (doc inv) = _id d0 /\
        ((forall d, d ∈ db_deal s -> ~ deal_matches cn pn d) ->
         d0 = dl /\ Invoice.deal_id (doc inv) = Mou.deal_id (doc m)).
Proof.
  intros (dl & m & _ & -> & Hid & _ & Hm & _)%create_mou_inr.
  exists dl, m. simpl. split; [done|].
  split; [intros d Hd%fresh_oid_deal; lia|]. split; [done|]. split; [done|].
  intros env' q Hdl.
  set (cn := CreateInvoiceRequest.client_name q) in *.
  set (pn := CreateInvoiceRequest.project_name q) in *.
  destruct (first_deal_exists cn pn (db_deal s ++ [dl]) dl) as [d0 Hd0];
    [apply elem_of_app; right; constructor|done|].
  destruct (create_invoice_existing env' q
              (mkStore (db_deal s ++ [dl]) (db_mou s ++ [m]) (db_invoice s)
                 (db_receipt s)) d0 Hd0) as (inv & -> & Hinv & _).
  simpl. split; [done|]. exists d0, inv. split; [done|]. split; [done|].
  split; [done|]. intros Hnone.
  assert (d0 = dl) as ->
    by (eapply first_deal_unique; [exact Hd0|by apply first_deal_app_last]).
  split; [done|]. congruence.
Qed.

(** An invoice created for the names of a deal that MOU creation made does
    reuse this deal: after [acme_mou] on the empty store, [acme_invoice]
    refers to the deal of the MOU. *)
Lemma invoice_reuses_mou_deal :
  ~ (forall env (p : CreateMouRequest.t) s r s1 env'
            (q : CreateInvoiceRequest.t) m inv,
       create_mou env p s = (inr r, s1) ->
       db_mou s1 = db_mou s ++ [m] ->
       (exists dl, dl ∈ db_deal s1 /\ _id dl = Mou.deal_id (doc m) /\
                   deal_matches (CreateInvoiceRequest.client_name q)
                     (CreateInvoiceRequest.project_name q) dl) ->
       db_invoice (snd (create_invoice env' q s1)) = db_invoice s1 ++ [inv] ->
       Invoice.deal_id (doc inv) <> Mou.deal_id (doc m)).
Proof.
  intros H.
  eapply (H env0 acme_mou empty_store _ _ env1 acme_invoice).
  - vm_compute. reflexivity.
  - vm_compute. reflexivity.
  - eexists. split; [vm_compute; constructor|]. split; [reflexivity|].
    split; reflexivity.
  - vm_compute. reflexivity.
  - reflexivity.
Qed.

Lemma mou_deal_reused_by_invoice_witness :
  exists dl, db_deal store_mou = [dl] /\
    db_deal (snd (create_invoice env1 acme_invoice store_mou)) = [dl].
Proof.
  destruct (mou_deal_reused_by_invoice env0 acme_mou empty_store
              (CreateMouResponse.mk 2 "a3f1c2") store_mou)
    as (dl & m & Hdl & _ & _ & _ & Hinv).
  - vm_compute. reflexivity.
  - exists dl. split; [exact Hdl|].
    destruct (Hinv env1 acme_invoice) as [Hs2 _].
    + unfold store_mou in Hdl. vm_compute in Hdl. injection Hdl as <-.
      split; reflexivity.
    + rewrite Hs2. exact Hdl.
Defined.

(** ** Updates in place *)

Lemma update_first_split {A} (f : A -> bool) (upd : A -> A)
  (l : list (Stored A)) i :
  List.find (fun d => f (doc d)) l = Some i ->
  exists l1 l2,
    l = l1 ++ i :: l2 /\
    (forall x, x ∈ l1 -> f (doc x) = false) /\
    f (doc i) = true /\
    update_first f upd l
    = l1 ++ mkStored (_id i) (created_at i) (upd (doc i)) :: l2.
Proof.
  induction l as [|x l IH]; simpl; [discriminate|].
  destruct (f (doc x)) eqn:Hx.
  - intros [= ->]. exists [], l. split; [done|]. split; [|done].
    intros y Hy. by apply elem_of_nil in Hy.
  - intros H. destruct (IH H) as (l1 & l2 & -> & Hl1 & Hi & ->).
    exists (x :: l1), l2. split; [done|]. split; [|done].
    intros y [->|Hy]%elem_of_cons; auto.
Qed.

Lemma update_first_none {A} (f : A -> bool) (upd : A -> A)
  (l : list (Stored A)) :
  List.find (fun d => f (doc d)) l = None -> update_first f upd l = l.
Proof.
  induction l as [|x l IH]; simpl; [done|].
  destruct (f (doc x)); [discriminate|]. intros H. by rewrite IH.
Qed.

Lemma max_id_update_first {A} (f : A -> bool) (upd : A -> A)
  (l : list (Stored A)) :
  max_id (update_first f upd l) = max_id l.
Proof.
  induction l as [|x l IH]; simpl; [done|].
  destruct (f (doc x)); simpl; [done|]. by rewrite IH.
Qed.

Lemma find_middle {A} (f : A -> bool) (l1 l2 : list A) x :
  (forall y, y ∈ l1 -> f y = false) -> f x = true ->
  List.find f (l1 ++ x :: l2) = Some x.
Proof.
  intros Hl Hx. induction l1 as [|y l1 IH]; simpl.
  - by rewrite Hx.
  - rewrite (Hl y) by constructor. apply IH. intros z Hz. apply Hl.
    by constructor.
Qed.

(** ** Marking an invoice paid *)

Lemma mark_invoice_paid_found env token payload s i :
  List.find (fun d => by_view_token token (doc d)) (db_invoice s) = Some i ->
  mark_invoice_paid env token payload s
  = (inr (MarkPaidResponse.mk "paid" (fresh_oid s)),
     mkStore (db_deal s) (db_mou s)
       (update_first (by_view_token token)
          (set_paid (payment_date_of env payload) payload) (db_invoice s))
       (db_receipt s
        ++ [mkStored (fresh_oid s) (clock1 env)
              (receipt_of env token payload (doc i))])).
Proof.
  intros Hfind. unfold mark_invoice_paid. unfold_monad. simpl.
  rewrite Hfind. simpl. unfold fresh_oid. simpl.
  by rewrite max_id_update_first.
Qed.

Lemma mark_invoice_paid_missing env token payload s :
  List.find (fun d => by_view_token token (doc d)) (db_invoice s) = None ->
  mark_invoice_paid env token payload s
  = (inl (HTTPException 404 "Invoice not found"), s).
Proof.
  intros Hfind. unfold mark_invoice_paid. unfold_monad. simpl.
  by rewrite Hfind.
Qed.

Lemma find_invoice_token token (l : list (Stored Invoice.t)) i0 :
  i0 ∈ l -> Invoice.view_token (doc i0) = token ->
  exists i, List.find (fun d => by_view_token token (doc d)) l = Some i.
Proof.
  intros Hin Ht.
  destruct (List.find _ l) as [i|] eqn:Hf; [by exists i|].
  rewrite find_none_iff in Hf. specialize (Hf i0 Hin). simpl in Hf.
  apply by_view_token_true in Ht. congruence.
Qed.

(** C5, amended: marking paid a token that a stored invoice has succeeds.
    The first invoice with this token keeps its place and identifier and
    gets the status "paid", with [paid_at] the payment date of the request
    when the request has a non-empty one, and the current date when it has
    none or an empty one.  Exactly one receipt is added, for this token and
    with the amount received of the request, and the returned identifier
    resolves to it. *)
Theorem mark_invoice_paid_spec env token (payload : MarkPaidRequest.t) s i0 :
  i0 ∈ db_invoice s -> Invoice.view_token (doc i0) = token ->
  exists s' r l1 i l2 i' pd,
    mark_invoice_paid env token payload s
    = (inr (MarkPaidResponse.mk "paid" (_id r)), s') /\
    db_invoice s = l1 ++ i :: l2 /\
    (forall x, x ∈ l1 -> Invoice.view_token (doc x) <> token) /\
    Invoice.view_token (doc i) = token /\
    db_invoice s' = l1 ++ i' :: l2 /\
    _id i' = _id i /\
    Invoice.view_token (doc i') = token /\
    Invoice.status (doc i') = "paid" /\
    Invoice.paid_at (doc i') = Some pd /\
    (forall d, MarkPaidRequest.payment_date payload = Some d -> d <> "" ->
               pd = d) /\
    (MarkPaidRequest.payment_date payload = None \/
     MarkPaidRequest.payment_date payload = Some "" ->
     pd = utcnow_date_iso env) /\
    db_receipt s' = db_receipt s ++ [r] /\
    Receipt.amount_paid (doc r) = MarkPaidRequest.amount_received payload /\
    Receipt.invoice_token (doc r) = token /\
    find_by_id (_id r) (db_receipt s') = Some r.
Proof.
  intros Hin Ht. destruct (find_invoice_token token _ i0 Hin Ht) as [i Hf].
  rewrite (mark_invoice_paid_found env token payload s i Hf).
  destruct (update_first_split (by_view_token token)
              (set_paid (payment_date_of env payload) payload) _ i Hf)
    as (l1 & l2 & Hl & Hl1 & Hi & ->).
  eexists _, (mkStored _ _ _), l1, i, l2, (mkStored _ _ _),
    (payment_date_of env payload).
  split; [reflexivity|]. simpl. split; [done|].
  split.
  { intros x Hx Hxt%by_view_token_true. specialize (Hl1 x Hx). congruence. }
  apply by_view_token_true in Hi.
  do 6 (split; [done|]). split.
  { intros d Hd Hne. unfold payment_date_of. rewrite Hd.
    apply str_truthy_true in Hne. by rewrite Hne. }
  split.
  { unfold payment_date_of. intros [->| ->]; done. }
  do 3 (split; [done|]).
  apply (find_by_id_new (db_receipt s) (mkStored _ _ _)).
  intros d Hd%fresh_oid_receipt. done.
Qed.

Lemma mark_invoice_paid_spec_witness :
  exists s' r,
    mark_invoice_paid env2 "b7d4e9" paid_500 store_invoice
    = (inr (MarkPaidResponse.mk "paid" (_id r)), s')
    /\ db_receipt s' = [r].
Proof.
  destruct (db_invoice store_invoice) as [|i0 l] eqn:Hi; [discriminate|].
  destruct (mark_invoice_paid_spec env2 "b7d4e9" paid_500 store_invoice i0)
    as (s' & r & ? & ? & ? & ? & ? & Hs & ? & ? & ? & ? & ? & ? & ? & ?
        & ? & ? & Hr & ?).
  - rewrite Hi. constructor.
  - injection Hi as <- _. reflexivity.
  - by exists s', r.
Defined.

(** An empty payment date in the request is not what the invoice gets as
    [paid_at]: with [paid_no_date] the invoice of [store_invoice] is paid at
    the current date. *)
Lemma paid_at_empty_payment_date :
  ~ (forall env token (payload : MarkPaidRequest.t) s r s' d i',
       mark_invoice_paid env token payload s = (inr r, s') ->
       MarkPaidRequest.payment_date payload = Some d ->
       List.find (fun x => by_view_token token (doc x)) (db_invoice s')
       = Some i' ->
       Invoice.paid_at (doc i') = Some d).
Proof.
  intros H.
  assert (exists r s' i',
            mark_invoice_paid env2 "b7d4e9" paid_no_date store_invoice
            = (inr r, s')
            /\ List.find (fun x => by_view_token "b7d4e9" (doc x))
                 (db_invoice s') = Some i'
            /\ Invoice.paid_at (doc i') = Some "2024-05-03")
    as (r & s' & i' & H1 & H2 & H3).
  { eexists _, _, _. split; [vm_compute; reflexivity|].
    split; [vm_compute; reflexivity|]. reflexivity. }
  specialize (H _ _ _ _ _ _ "" _ H1 eq_refl H2). rewrite H3 in H.
  discriminate.
Qed.

(** C6: the mark-paid handler raises the 404 error exactly when no stored
    invoice has the token, and raises nothing else; the status of the
    invoice plays no part.  When an invoice has the token, a first request
    leaves it with the status "paid", and a second request on this paid
    invoice succeeds as well: the two requests add two receipts for the
    same token, under two identifiers. *)
Theorem mark_invoice_paid_not_found_iff env token payload s :
  (fst (mark_invoice_paid env token payload s)
   = inl (HTTPException 404 "Invoice not found")
   <-> forall i, i ∈ db_invoice s -> Invoice.view_token (doc i) <> token)
  /\
  (forall e, fst (mark_invoice_paid env token payload s) = inl e ->
             e = HTTPException 404 "Invoice not found")
  /\
  (forall i0 env' payload',
     i0 ∈ db_invoice s -> Invoice.view_token (doc i0) = token ->
     exists r1 s1 i1 r2 s2,
       mark_invoice_paid env token payload s
       = (inr (MarkPaidResponse.mk "paid" (_id r1)), s1) /\
       List.find (fun d => by_view_token token (doc d)) (db_invoice s1)
       = Some i1 /\
       Invoice.status (doc i1) = "paid" /\
       mark_invoice_paid env' token payload' s1
       = (inr (MarkPaidResponse.mk "paid" (_id r2)), s2) /\
       db_receipt s2 = db_receipt s ++ [r1; r2] /\
       Receipt.invoice_token (doc r1) = token /\
       Receipt.invoice_token (doc r2) = token /\
       _id r1 <> _id r2).
Proof.
  destruct (List.find (fun d => by_view_token token (doc d)) (db_invoice s))
    as [i|] eqn:Hf.
  - rewrite (mark_invoice_paid_found env token payload s i Hf). simpl.
    split; [|split; [done|]].
    + split; [done|]. intros Hnone. exfalso.
      apply find_first_match, first_match_elem in Hf as [Hin Hi].
      apply by_view_token_true in Hi. by apply (Hnone i).
    + intros i0 env' payload' _ _.
      destruct (update_first_split (by_view_token token)
                  (set_paid (payment_date_of env payload) payload) _ i Hf)
        as (l1 & l2 & Hl & Hl1 & Hi & Hupd).
      set (i1 := mkStored (_id i) (created_at i)
                   (set_paid (payment_date_of env payload) payload (doc i))).
      set (r1 := mkStored (fresh_oid s) (clock1 env)
                   (receipt_of env token payload (doc i))).
      set (s1 := mkStore (db_deal s) (db_mou s)
                   (update_first (by_view_token token)
                      (set_paid (payment_date_of env payload) payload)
                      (db_invoice s))
                   (db_receipt s ++ [r1])).
      assert (List.find (fun d => by_view_token token (doc d)) (db_invoice s1)
              = Some i1) as Hf1.
      { simpl. rewrite Hupd. by apply find_middle. }
      eexists r1, s1, i1,
        (mkStored (fresh_oid s1) (clock1 env')
           (receipt_of env' token payload' (doc i1))), _.
      split; [reflexivity|]. split; [exact Hf1|]. split; [done|].
      split; [apply (mark_invoice_paid_found env' token payload' s1 i1 Hf1)|].
      simpl. split; [by rewrite <- app_assoc|]. split; [done|].
      split; [done|].
      assert (_id r1 < fresh_oid s1) as Hlt; [|simpl in Hlt; lia].
      apply fresh_oid_receipt. simpl. apply elem_of_app. right. constructor.
  - rewrite (mark_invoice_paid_missing env token payload s Hf). simpl.
    rewrite find_none_iff in Hf.
    split; [|split; [by intros e [= <-]|]].
    + split; [|done]. intros _ i Hin Ht%by_view_token_true.
      specialize (Hf i Hin). simpl in Hf. congruence.
    + intros i0 env' payload' Hin Ht%by_view_token_true.
      specialize (Hf i0 Hin). simpl in Hf. congruence.
Qed.

Lemma mark_invoice_paid_not_found_iff_witness :
  fst (mark_invoice_paid env2 "unknown" paid_500 store_invoice)
  = inl (HTTPException 404 "Invoice not found")
  /\ exists r1 s1 r2 s2,
       mark_invoice_paid env2 "b7d4e9" paid_500 store_invoice
       = (inr (MarkPaidResponse.mk "paid" (_id r1)), s1)
       /\ mark_invoice_paid env0 "b7d4e9" paid_no_date s1
          = (inr (MarkPaidResponse.mk "paid" (_id r2)), s2)
       /\ db_receipt s2 = [r1; r2].
Proof.
  split.
  - apply (proj1 (mark_invoice_paid_not_found_iff env2 "unknown" paid_500
                    store_invoice)).
    intros i Hi. vm_compute in Hi. apply list_elem_of_singleton in Hi as ->.
    discriminate.
  - destruct (db_invoice store_invoice) as [|i0 l] eqn:Hi; [discriminate|].
    destruct (proj2 (proj2 (mark_invoice_paid_not_found_iff env2 "b7d4e9"
                              paid_500 store_invoice)) i0 env0 paid_no_date)
      as (r1 & s1 & i1 & r2 & s2 & H1 & _ & _ & H2 & H3 & _).
    + rewrite Hi. constructor.
    + injection Hi as <- _. reflexivity.
    + by exists r1, s1, r2, s2.
Defined.

(** ** The effect of a request on the MOUs and on the invoices *)

Lemma handle_mou_cases env r s :
  db_mou (handle env r s) = db_mou s
  \/ (exists p m,
        r = CreateMou p /\ db_mou (handle env r s) = db_mou s ++ [m] /\
        Mou.status (doc m) = "sent" /\ unsigned (doc m))
  \/ (exists token payload l1 m l2,
        r = SignMou token payload /\ SignMouRequest.agree payload = true /\
        db_mou s = l1 ++ m :: l2 /\
        (forall x, x ∈ l1 -> Mou.sign_token (doc x) <> token) /\
        Mou.sign_token (doc m) = token /\
        db_mou (handle env r s)
        = l1 ++ mkStored (_id m) (created_at m)
                  (set_signed env payload (doc m)) :: l2).
Proof.
  destruct r as [| |payload|token|token payload|payload|token|token payload
                |cn pn]; simpl.
  - by left.
  - by left.
  - destruct (create_mou env payload s) as [[e|r] s1] eqn:Hc; simpl.
    + left. by rewrite (create_mou_inl _ _ _ _ _ Hc).
    + right; left.
      apply create_mou_inr
        in Hc as (dl & m & _ & -> & _ & _ & _ & Hst & _ & Hu).
      by exists payload, m.
  - unfold get_mou_by_token. unfold_monad. simpl.
    destruct (List.find _ _); simpl; by left.
  - unfold sign_mou. destruct (SignMouRequest.agree payload) eqn:Ha; simpl;
      [|by left].
    unfold_monad. simpl.
    destruct (List.find _ (db_mou s)) as [m|] eqn:Hf; simpl; [|by left].
    right; right.
    destruct (update_first_split (by_sign_token token)
                (set_signed env payload) _ m Hf)
      as (l1 & l2 & Hl & Hl1 & Hm & Hupd).
    exists token, payload, l1, m, l2. split; [done|]. split; [done|].
    split; [done|]. split.
    { intros x Hx Hxt%by_sign_token_true. specialize (Hl1 x Hx).
      congruence. }
    split; [by apply by_sign_token_true|done].
  - unfold create_invoice. unfold_monad. simpl.
    destruct (List.find _ _); simpl; by left.
  - unfold get_invoice_by_token. unfold_monad. simpl.
    destruct (List.find _ _); simpl; by left.
  - unfold mark_invoice_paid. unfold_monad. simpl.
    destruct (List.find _ _); simpl; by left.
  - unfold deal_snapshot. unfold_monad. simpl.
    destruct (List.find _ _); simpl; [|by left].
    destruct (latest _); simpl; by left.
Qed.

Lemma handle_invoice_cases env r s :
  db_invoice (handle env r s) = db_invoice s
  \/ (exists i, db_invoice (handle env r s) = db_invoice s ++ [i] /\
                Invoice.status (doc i) = "sent")
  \/ (exists token pd payload,
        db_invoice (handle env r s)
        = update_first (by_view_token token) (set_paid pd payload)
            (db_invoice s)).
Proof.
  destruct r as [| |payload|token|token payload|payload|token|token payload
                |cn pn]; simpl.
  - by left.
  - by left.
  - destruct (create_mou env payload s) as [[e|r] s1] eqn:Hc; simpl.
    + left. by rewrite (create_mou_inl _ _ _ _ _ Hc).
    + left. by apply create_mou_inr in Hc as (dl & m & _ & -> & _).
  - unfold get_mou_by_token. unfold_monad. simpl.
    destruct (List.find _ _); simpl; by left.
  - unfold sign_mou. destruct (SignMouRequest.agree payload); simpl;
      [|by left].
    unfold_monad. simpl. destruct (List.find _ _); simpl; by left.
  - right; left. unfold create_invoice. unfold_monad. simpl.
    destruct (List.find _ _); simpl; by eexists.
  - unfold get_invoice_by_token. unfold_monad. simpl.
    destruct (List.find _ _); simpl; by left.
  - unfold mark_invoice_paid. unfold_monad. simpl.
    destruct (List.find _ _); simpl; [|by left].
    right; right. by eexists _, _, _.
  - unfold deal_snapshot. unfold_monad. simpl.
    destruct (List.find _ _); simpl; [|by left].
    destruct (latest _); simpl; by left.
Qed.

Lemma Forall_update_first {A} (P : Stored A -> Prop) (f : A -> bool)
  (upd : A -> A) (l : list (Stored A)) :
  (forall d, P (mkStored (_id d) (created_at d) (upd (doc d)))) ->
  Forall P l -> Forall P (update_first f upd l).
Proof.
  intros Hupd. induction 1 as [|x l Hx Hl IH]; simpl; [constructor|].
  destruct (f (doc x)); constructor; auto.
Qed.

Lemma handle_statuses_ok env r s :
  statuses_ok s -> statuses_ok (handle env r s).
Proof.
  intros [Hm Hi]. split.
  - destruct (handle_mou_cases env r s)
      as [->|[(p & m & _ & -> & Hst & _)
             |(token & payload & l1 & m & l2 & _ & _ & Hl & _ & _ & ->)]].
    + done.
    + apply Forall_app. split; [done|]. constructor; [by left|constructor].
    + rewrite Hl in Hm. apply Forall_app in Hm as [H1 H2].
      apply Forall_cons in H2 as [_ H2]. apply Forall_app. split; [done|].
      constructor; [by right|done].
  - destruct (handle_invoice_cases env r s)
      as [->|[(i & -> & Hst)|(token & pd & payload & ->)]].
    + done.
    + apply Forall_app. split; [done|]. constructor; [by left|constructor].
    + apply Forall_update_first; [|done]. intros d. by right.
Qed.

Lemma reachable_statuses_ok s : reachable s -> statuses_ok s.
Proof.
  induction 1 as [|s env r _ IH].
  - split; constructor.
  - by apply handle_statuses_ok.
Qed.

Lemma reachable_run reqs s : reachable s -> reachable (run reqs s).
Proof.
  revert s. induction reqs as [|[env r] reqs IH]; intros s Hs; simpl; [done|].
  apply IH. by constructor.
Qed.

(** ** The hint to generate an invoice *)

(** C2, amended: in every store the handlers can produce, every stored
    invoice has the status "sent" or "paid", never "draft"; yet the snapshot
    does return the hint to generate an invoice, exactly when the status it
    shows for the MOU is "Signed" and no invoice refers to the deal, since
    the snapshot gives a deal without invoice the invoice status "Draft". *)
Theorem hint_invoice_iff s cn pn snap :
  reachable s ->
  deal_snapshot cn pn s = (inr snap, s) ->
  (forall i, i ∈ db_invoice s ->
     Invoice.status (doc i) = "sent" \/ Invoice.status (doc i) = "paid") /\
  (Snapshot.next_step snap = hint_invoice <->
   StatusLink.status (Snapshot.mou snap) = "Signed" /\
   exists dl, first_deal cn pn (db_deal s) dl /\
              forall i, i ∈ db_invoice s -> Invoice.deal_id (doc i) <> _id dl).
Proof.
  intros [Hm Hi]%reachable_statuses_ok Hs.
  rewrite Forall_forall in Hm. rewrite Forall_forall in Hi.
  split; [exact Hi|]. revert Hs. unfold deal_snapshot. unfold_monad. simpl.
  destruct (List.find _ (db_deal s)) as [dl|] eqn:Hf; [|discriminate].
  apply find_first_deal in Hf.
  pose proof (latest_filter_spec (fun m => mou_by_deal_id (_id dl) (doc m))
                (fun m => Mou.deal_id (doc m) = _id dl) (db_mou s)
                (fun x => Nat.eqb_eq _ _)) as Hmou.
  pose proof (latest_filter_spec
                (fun i => invoice_by_deal_id (_id dl) (doc i))
                (fun i => Invoice.deal_id (doc i) = _id dl) (db_invoice s)
                (fun x => Nat.eqb_eq _ _)) as Hinv.
  destruct (latest (List.filter (fun m => mou_by_deal_id _ _) _)) as [m|];
    destruct (latest (List.filter (fun i => invoice_by_deal_id _ _) _))
      as [i|]; simpl in *; intros [= <-]; simpl.
  - destruct Hinv as (Hin & Hdl & _). split.
    + destruct (Hm m (proj1 Hmou)) as [-> | ->],
        (Hi i Hin) as [-> | ->]; simpl;
        try discriminate; by destruct (found _).
    + intros (_ & dl' & Hdl' & Hno).
      rewrite (first_deal_unique _ _ _ _ _ Hdl' Hf) in Hno.
      by destruct (Hno i Hin).
  - destruct (Hm m (proj1 Hmou)) as [Hs|Hs]; rewrite Hs; simpl.
    + split; [discriminate|]. by intros [? _].
    + split; [|done]. intros _. split; [done|]. by exists dl.
  - split; [discriminate|]. by intros [? _].
  - split; [discriminate|]. by intros [? _].
Qed.

Lemma store_signed_reachable : reachable store_signed.
Proof. unfold store_signed, store_mou. repeat constructor. Qed.

Lemma hint_invoice_iff_witness :
  exists snap,
    deal_snapshot "Acme" "Website" store_signed = (inr snap, store_signed)
    /\ (Snapshot.next_step snap = hint_invoice <->
        StatusLink.status (Snapshot.mou snap) = "Signed" /\
        exists dl, first_deal "Acme" "Website" (db_deal store_signed) dl /\
                   forall i, i ∈ db_invoice store_signed ->
                             Invoice.deal_id (doc i) <> _id dl).
Proof.
  eassert (deal_snapshot "Acme" "Website" store_signed
           = (inr _, store_signed)) as Hs by (vm_compute; reflexivity).
  eexists. split; [exact Hs|].
  exact (proj2 (hint_invoice_iff store_signed "Acme" "Website" _
                  store_signed_reachable Hs)).
Defined.

(** The hint to generate an invoice is returned in a store the handlers
    produce: after an MOU was created and signed, and before any invoice
    exists for the deal. *)
Lemma hint_invoice_reached :
  ~ (forall s cn pn snap,
       reachable s -> deal_snapshot cn pn s = (inr snap, s) ->
       Snapshot.next_step snap <> hint_invoice).
Proof.
  intros H.
  eassert (deal_snapshot "Acme" "Website" store_signed
           = (inr _, store_signed)) as Hs by (vm_compute; reflexivity).
  apply (H _ _ _ _ store_signed_reachable Hs). reflexivity.
Qed.

(** ** The life of an MOU *)

Lemma lookup_replace_middle {A} (l1 l2 : list A) (x y : A) i :
  i <> length l1 -> (l1 ++ y :: l2) !! i = (l1 ++ x :: l2) !! i.
Proof.
  intros Hi. destruct (decide (i < length l1)) as [Hlt|Hge].
  - by rewrite !lookup_app_l.
  - rewrite !lookup_app_r by lia.
    destruct (i - length l1) as [|k] eqn:Hk; [lia|done].
Qed.




(** ** The names of the deal of an MOU *)

Lemma validate_opt_str_optional b k :
  optional_str b k -> exists o, validate_opt_str (dict_get b k) = inr o.
Proof.
  unfold dict_get. intros [->|[->|[v ->]]]; simpl; eauto.
Qed.


Lemma project_name_from_get pj pn :
  project_name_from pj pn -> dict_get_default pj "name" (JStr "") = JStr pn.
Proof.
  unfold dict_get_default. by intros [->|[-> ->]].
Qed.




(** ** The scenario of the specification, end to end *)

(** An MOU is created for ("Acme", "Website") and signed, an invoice is
    created for the same pair, which reuses the deal, and is marked paid:
    the snapshot then shows "Signed", "Paid", a receipt and no hint. *)
Example end_to_end :
  let s :=
    run [(env0, CreateMou acme_mou);
         (env1, SignMou "a3f1c2" sign_bob);
         (env1, CreateInvoice acme_invoice);
         (env2, MarkInvoicePaid "b7d4e9" paid_500)] empty_store in
  length (db_deal s) = 1 /\
  fst (deal_snapshot "Acme" "Website" s)
  = inr {| Snapshot.client_name := "Acme";
           Snapshot.project_name := "Website";
           Snapshot.mou := StatusLink.mk "Signed" (Some "/sign/a3f1c2");
           Snapshot.invoice := StatusLink.mk "Paid" (Some "/invoice/b7d4e9");
           Snapshot.receipt_available := true;
           Snapshot.next_step := "" |}.
Proof. vm_compute. split; reflexivity. Qed.

(** * The other handlers and how the handlers compose *)

(** ** Lookups by token *)

Lemma find_first_with {A} (f : A -> bool) (P : A -> Prop) (l : list A) d :
  (forall x, f x = true <-> P x) ->
  List.find f l = Some d -> exists l1 l2, first_with P l l1 d l2.
Proof.
  intros HfP. induction l as [|x l IH]; simpl; [discriminate|].
  destruct (f x) eqn:Hx.
  - intros [= ->]. exists [], l. split; [done|]. split; [by apply HfP|].
    intros y Hy. by apply elem_of_nil in Hy.
  - intros H. destruct (IH H) as (l1 & l2 & -> & Hd & Hall).
    exists (x :: l1), l2. split; [done|]. split; [done|].
    intros y [->|Hy]%elem_of_cons; [|by apply Hall].
    intros HPx%HfP. congruence.
Qed.

Lemma first_with_find {A} (f : A -> bool) (P : A -> Prop) (l l1 l2 : list A)
  d :
  (forall x, f x = true <-> P x) ->
  first_with P l l1 d l2 -> List.find f l = Some d.
Proof.
  intros HfP (-> & Hd & Hall). apply find_middle; [|by apply HfP].
  intros y Hy. destruct (f y) eqn:Hfy; [|done].
  apply HfP in Hfy. by destruct (Hall y Hy).
Qed.

Lemma find_none_with {A} (f : A -> bool) (P : A -> Prop) (l : list A) :
  (forall x, f x = true <-> P x) ->
  List.find f l = None <-> forall x, x ∈ l -> ~ P x.
Proof.
  intros HfP. split.
  - intros H x Hx HPx%HfP.
    pose proof (List.find_none f l H x) as Hn.
    rewrite Hn in HPx; [discriminate|]. by apply list_elem_of_In.
  - intros H. induction l as [|x l IH]; simpl; [done|].
    destruct (f x) eqn:Hfx.
    + apply HfP in Hfx. destruct (H x); [constructor|done].
    + apply IH. intros y Hy. apply H. by constructor.
Qed.

Lemma mou_token_filter token (m : Stored Mou.t) :
  by_sign_token token (doc m) = true <-> Mou.sign_token (doc m) = token.
Proof. apply by_sign_token_true. Qed.

Lemma invoice_token_filter token (i : Stored Invoice.t) :
  by_view_token token (doc i) = true <-> Invoice.view_token (doc i) = token.
Proof. apply by_view_token_true. Qed.

(** X1: fetching an MOU by token never writes to the store; it raises the
    404 error exactly when no stored MOU has the token, and otherwise
    returns the first stored MOU, in insertion order, that has it. *)
Theorem get_mou_by_token_spec token s :
  snd (get_mou_by_token token s) = s /\
  (fst (get_mou_by_token token s) = inl (HTTPException 404 "MOU not found")
   <-> forall m, m ∈ db_mou s -> Mou.sign_token (doc m) <> token) /\
  (forall e, fst (get_mou_by_token token s) = inl e ->
             e = HTTPException 404 "MOU not found") /\
  (forall m, fst (get_mou_by_token token s) = inr m ->
     exists l1 l2,
       first_with (fun x => Mou.sign_token (doc x) = token) (db_mou s)
         l1 m l2).
Proof.
  unfold get_mou_by_token. unfold_monad. simpl.
  destruct (List.find _ (db_mou s)) as [m|] eqn:Hf; simpl.
  - split; [done|]. split; [|split; [done|]].
    + split; [done|]. intros Hnone. exfalso.
      apply (find_first_with _ _ _ _ (mou_token_filter token)) in Hf
        as (l1 & l2 & Hl & Hm & _).
      apply (Hnone m); [|done]. rewrite Hl. apply elem_of_app. right.
      constructor.
    + intros m' [= <-].
      by apply (find_first_with _ _ _ _ (mou_token_filter token)) in Hf.
  - split; [done|]. split; [|split; [by intros e [= <-]|done]].
    split; [|done]. intros _.
    by apply (find_none_with _ _ _ (mou_token_filter token)).
Qed.

Lemma get_mou_by_token_spec_witness :
  fst (get_mou_by_token "unknown" store_signed)
  = inl (HTTPException 404 "MOU not found")
  /\ exists m l1 l2,
       fst (get_mou_by_token "a3f1c2" store_signed) = inr m
       /\ first_with (fun x => Mou.sign_token (doc x) = "a3f1c2")
            (db_mou store_signed) l1 m l2.
Proof.
  split.
  - apply (proj1 (proj2 (get_mou_by_token_spec "unknown" store_signed))).
    intros m Hm. vm_compute in Hm. apply list_elem_of_singleton in Hm as ->.
    discriminate.
  - destruct (fst (get_mou_by_token "a3f1c2" store_signed)) as [e|m] eqn:Hg;
      [vm_compute in Hg; discriminate|].
    destruct (proj2 (proj2 (proj2
                (get_mou_by_token_spec "a3f1c2" store_signed))) m Hg)
      as (l1 & l2 & H).
    by exists m, l1, l2.
Defined.

(** X2: fetching an invoice by token never writes to the store; it raises
    the 404 error exactly when no stored invoice has the token, and
    otherwise returns the first stored invoice that has it. *)
Theorem get_invoice_by_token_spec token s :
  snd (get_invoice_by_token token s) = s /\
  (fst (get_invoice_by_token token s)
   = inl (HTTPException 404 "Invoice not found")
   <-> forall i, i ∈ db_invoice s -> Invoice.view_token (doc i) <> token) /\
  (forall e, fst (get_invoice_by_token token s) = inl e ->
             e = HTTPException 404 "Invoice not found") /\
  (forall i, fst (get_invoice_by_token token s) = inr i ->
     exists l1 l2,
       first_with (fun x => Invoice.view_token (doc x) = token)
         (db_invoice s) l1 i l2).
Proof.
  unfold get_invoice_by_token. unfold_monad. simpl.
  destruct (List.find _ (db_invoice s)) as [i|] eqn:Hf; simpl.
  - split; [done|]. split; [|split; [done|]].
    + split; [done|]. intros Hnone. exfalso.
      apply (find_first_with _ _ _ _ (invoice_token_filter token)) in Hf
        as (l1 & l2 & Hl & Hi & _).
      apply (Hnone i); [|done]. rewrite Hl. apply elem_of_app. right.
      constructor.
    + intros i' [= <-].
      by apply (find_first_with _ _ _ _ (invoice_token_filter token)) in Hf.
  - split; [done|]. split; [|split; [by intros e [= <-]|done]].
    split; [|done]. intros _.
    by apply (find_none_with _ _ _ (invoice_token_filter token)).
Qed.

Lemma get_invoice_by_token_spec_witness :
  fst (get_invoice_by_token "unknown" store_invoice)
  = inl (HTTPException 404 "Invoice not found")
  /\ exists i l1 l2,
       fst (get_invoice_by_token "b7d4e9" store_invoice) = inr i
       /\ first_with (fun x => Invoice.view_token (doc x) = "b7d4e9")
            (db_invoice store_invoice) l1 i l2.
Proof.
  split.
  - apply (proj1 (proj2 (get_invoice_by_token_spec "unknown" store_invoice))).
    intros i Hi. vm_compute in Hi. apply list_elem_of_singleton in Hi as ->.
    discriminate.
  - destruct (fst (get_invoice_by_token "b7d4e9" store_invoice))
      as [e|i] eqn:Hg; [vm_compute in Hg; discriminate|].
    destruct (proj2 (proj2 (proj2
                (get_invoice_by_token_spec "b7d4e9" store_invoice))) i Hg)
      as (l1 & l2 & H).
    by exists i, l1, l2.
Defined.

(** ** Signing *)

Lemma update_first_middle {A} (f : A -> bool) (upd : A -> A)
  (l1 l2 : list (Stored A)) d :
  (forall x, x ∈ l1 -> f (doc x) = false) -> f (doc d) = true ->
  update_first f upd (l1 ++ d :: l2)
  = l1 ++ mkStored (_id d) (created_at d) (upd (doc d)) :: l2.
Proof.
  intros Hl Hd. induction l1 as [|y l1 IH]; simpl.
  - by rewrite Hd.
  - rewrite (Hl y) by constructor. f_equal. apply IH. intros z Hz.
    apply Hl. by constructor.
Qed.

Lemma set_signed_signed_from env payload (m : Stored Mou.t) :
  signed_from env payload m
    (mkStored (_id m) (created_at m) (set_signed env payload (doc m))).
Proof. by repeat split. Qed.

Lemma sign_mou_found env token (payload : SignMouRequest.t) s l1 m l2 :
  SignMouRequest.agree payload = true ->
  first_with (fun x => Mou.sign_token (doc x) = token) (db_mou s) l1 m l2 ->
  sign_mou env token payload s
  = (inr "signed",
     mkStore (db_deal s)
       (l1 ++ mkStored (_id m) (created_at m) (set_signed env payload (doc m))
           :: l2)
       (db_invoice s) (db_receipt s)).
Proof.
  intros Ha Hfw.
  pose proof (first_with_find _ _ _ _ _ _ (mou_token_filter token) Hfw) as Hf.
  destruct Hfw as (Hl & Hm & Hl1).
  unfold sign_mou. rewrite Ha. unfold_monad. simpl. rewrite Hf. simpl.
  rewrite Hl, update_first_middle; [done| |by apply by_sign_token_true].
  intros x Hx. destruct (by_sign_token token (doc x)) eqn:Hb; [|done].
  apply by_sign_token_true in Hb. by destruct (Hl1 x Hx).
Qed.

Lemma sign_mou_missing env token (payload : SignMouRequest.t) s :
  SignMouRequest.agree payload = true ->
  (forall m, m ∈ db_mou s -> Mou.sign_token (doc m) <> token) ->
  sign_mou env token payload s = (inl (HTTPException 404 "MOU not found"), s).
Proof.
  intros Ha Hnone.
  apply (find_none_with _ _ _ (mou_token_filter token)) in Hnone.
  unfold sign_mou. rewrite Ha. unfold_monad. simpl. by rewrite Hnone.
Qed.

(** X3: a sign request with agreement raises the 404 error, and leaves the
    store as it was, when no stored MOU has the token.  Otherwise it
    answers "signed" and rewrites the first MOU that has the token, and
    nothing else: this MOU keeps its place, identifier, deal, blobs and
    token and gets the status "signed" with the signer and the time of the
    request; the other MOUs, the deals, the invoices and the receipts are
    untouched. *)
Theorem sign_mou_agreed env token (payload : SignMouRequest.t) s :
  SignMouRequest.agree payload = true ->
  ((forall m, m ∈ db_mou s -> Mou.sign_token (doc m) <> token) ->
   sign_mou env token payload s
   = (inl (HTTPException 404 "MOU not found"), s))
  /\
  (forall l1 m l2,
     first_with (fun x => Mou.sign_token (doc x) = token) (db_mou s) l1 m l2 ->
     exists m',
       sign_mou env token payload s
       = (inr "signed",
          mkStore (db_deal s) (l1 ++ m' :: l2) (db_invoice s) (db_receipt s))
       /\ signed_from env payload m m').
Proof.
  intros Ha. split.
  - by apply sign_mou_missing.
  - intros l1 m l2 Hfw. eexists. split; [by apply sign_mou_found|].
    apply set_signed_signed_from.
Qed.

Lemma sign_mou_agreed_witness :
  sign_mou env1 "unknown" sign_bob store_mou
  = (inl (HTTPException 404 "MOU not found"), store_mou)
  /\ exists m m' s',
       db_mou store_mou = [m]
       /\ sign_mou env1 "a3f1c2" sign_bob store_mou = (inr "signed", s')
       /\ db_mou s' = [m']
       /\ signed_from env1 sign_bob m m'.
Proof.
  split.
  - apply (proj1 (sign_mou_agreed env1 "unknown" sign_bob store_mou eq_refl)).
    intros m Hm. vm_compute in Hm. apply list_elem_of_singleton in Hm as ->.
    discriminate.
  - destruct (db_mou store_mou) as [|m [|]] eqn:Hm; [discriminate| |discriminate].
    destruct (proj2 (sign_mou_agreed env1 "a3f1c2" sign_bob store_mou eq_refl)
                [] m []) as (m' & Hs & Hsf).
    + split; [exact Hm|]. split.
      * by injection Hm as <-.
      * intros x Hx. by apply elem_of_nil in Hx.
    + exists m, m'. eexists. split; [done|]. split; [exact Hs|]. done.
Defined.

(** X4: after a successful sign request, fetching the token returns the
    signed MOU: the document that was fetched before, now with the status
    "signed" and the name, title and time of the request. *)
Theorem sign_then_get env token (payload : SignMouRequest.t) s m :
  SignMouRequest.agree payload = true ->
  get_mou_by_token token s = (inr m, s) ->
  exists s' m',
    sign_mou env token payload s = (inr "signed", s') /\
    get_mou_by_token token s' = (inr m', s') /\
    signed_from env payload m m'.
Proof.
  intros Ha Hget. revert Hget. unfold get_mou_by_token at 1. unfold_monad.
  simpl. destruct (List.find _ (db_mou s)) as [m0|] eqn:Hf; [|discriminate].
  intros [= ->].
  apply (find_first_with _ _ _ _ (mou_token_filter token)) in Hf
    as (l1 & l2 & Hfw).
  rewrite (sign_mou_found env token payload s l1 m l2 Ha Hfw).
  eexists _, _. split; [reflexivity|]. split; [|apply set_signed_signed_from].
  destruct Hfw as (Hl & Hm & Hl1).
  unfold get_mou_by_token. unfold_monad. simpl.
  rewrite find_middle; [done| |by apply by_sign_token_true].
  intros x Hx. destruct (by_sign_token token (doc x)) eqn:Hb; [|done].
  apply by_sign_token_true in Hb. by destruct (Hl1 x Hx).
Qed.

Lemma sign_then_get_witness :
  exists m s' m',
    get_mou_by_token "a3f1c2" store_mou = (inr m, store_mou)
    /\ sign_mou env1 "a3f1c2" sign_bob store_mou = (inr "signed", s')
    /\ get_mou_by_token "a3f1c2" s' = (inr m', s')
    /\ signed_from env1 sign_bob m m'.
Proof.
  eassert (get_mou_by_token "a3f1c2" store_mou = (inr _, store_mou)) as Hg
      by (vm_compute; reflexivity).
  destruct (sign_then_get env1 "a3f1c2" sign_bob store_mou _ eq_refl Hg)
    as (s' & m' & H1 & H2 & H3).
  eexists _, s', m'. split; [exact Hg|]. done.
Defined.

(** ** Creating and fetching *)

Lemma Deal_new_inl a b c d e err :
  Deal_new a b c d e = inl err -> err = ValidationError.
Proof.
  unfold Deal_new, validate_str, validate_opt_str.
  repeat case_match; congruence.
Qed.

Lemma create_mou_cases env (p : CreateMouRequest.t) s :
  create_mou env p s = (inl ValidationError, s)
  \/ exists dl m,
       create_mou env p s
       = (inr (CreateMouResponse.mk (_id m) (uuid4_hex env)),
          mkStore (db_deal s ++ [dl]) (db_mou s ++ [m]) (db_invoice s)
            (db_receipt s))
       /\ deal_active dl
       /\ mou_of_request env p (_id dl) (doc m)
       /\ find_by_id (_id dl) (db_deal s ++ [dl]) = Some dl
       /\ find_by_id (_id m) (db_mou s ++ [m]) = Some m.
Proof.
  unfold create_mou. unfold_monad. simpl.
  destruct (Deal_new _ _ _ _ _) as [e|d] eqn:Hd; simpl.
  - left. by rewrite (Deal_new_inl _ _ _ _ _ _ Hd).
  - right. eexists (mkStored _ _ _), (mkStored _ _ _).
    split; [reflexivity|]. split; [exact (Deal_new_status _ _ _ _ _ _ Hd)|].
    split; [by repeat split|]. split.
    + apply (find_by_id_new (db_deal s) (mkStored _ _ _)).
      intros x Hx%fresh_oid_deal. done.
    + apply (find_by_id_new (db_mou s) (mkStored _ _ _)).
      intros x Hx%fresh_oid_mou. simpl. etrans; [exact Hx|].
      apply (fresh_oid_deal
               (mkStore (db_deal s ++ [mkStored (fresh_oid s) (clock1 env) d])
                  (db_mou s) (db_invoice s) (db_receipt s))
               (mkStored (fresh_oid s) (clock1 env) d)).
      simpl. apply elem_of_app. right. constructor.
Qed.


(** X6: the token that a successful MOU creation returns always fetches an
    MOU; when no MOU stored before has this token, it fetches the MOU just
    created: the one of the returned identifier, with the status "sent" and
    the blobs of the payload. *)
Theorem create_mou_then_get env (p : CreateMouRequest.t) s r s1 :
  create_mou env p s = (inr r, s1) ->
  (exists m, get_mou_by_token (CreateMouResponse.sign_url_token r) s1
             = (inr m, s1) /\
             Mou.sign_token (doc m) = CreateMouResponse.sign_url_token r)
  /\
  ((forall m, m ∈ db_mou s -> Mou.sign_token (doc m) <> uuid4_hex env) ->
   exists m, get_mou_by_token (CreateMouResponse.sign_url_token r) s1
             = (inr m, s1) /\
             _id m = CreateMouResponse.mou_id r /\
             mou_of_request env p (Mou.deal_id (doc m)) (doc m)).
Proof.
  intros Hc.
  destruct (create_mou_cases env p s)
    as [He|(dl & m & Hs & _ & Hm & _)]; [congruence|].
  rewrite Hs in Hc. injection Hc as <- <-. simpl.
  unfold get_mou_by_token. unfold_monad. simpl.
  assert (by_sign_token (uuid4_hex env) (doc m) = true) as Hbm.
  { apply by_sign_token_true. by destruct Hm as (_ & _ & _ & _ & _ & _ & ? & _). }
  split.
  - destruct (List.find _ (db_mou s ++ [m])) as [m0|] eqn:Hf.
    + exists m0. split; [done|].
      apply find_first_match, first_match_elem in Hf as [_ Hf].
      by apply by_sign_token_true.
    + rewrite find_none_iff in Hf. specialize (Hf m). simpl in Hf.
      rewrite Hf in Hbm; [discriminate|]. apply elem_of_app. right.
      constructor.
  - intros Hfresh. rewrite find_app_last; [|
      intros x Hx; destruct (by_sign_token _ (doc x)) eqn:Hb; [|done];
      apply by_sign_token_true in Hb; by destruct (Hfresh x Hx)|done].
    exists m. split; [done|]. split; [done|].
    destruct Hm as (Hid & Hrest). by rewrite Hid.
Qed.

Lemma create_mou_then_get_witness :
  exists r s1 m,
    create_mou env0 acme_mou empty_store = (inr r, s1)
    /\ get_mou_by_token (CreateMouResponse.sign_url_token r) s1 = (inr m, s1)
    /\ _id m = CreateMouResponse.mou_id r
    /\ Mou.status (doc m) = "sent".
Proof.
  eassert (create_mou env0 acme_mou empty_store = (inr _, _)) as Hc
      by (vm_compute; reflexivity).
  destruct (proj2 (create_mou_then_get env0 acme_mou empty_store _ _ Hc))
    as (m & Hg & Hid & Hm).
  - intros m Hm. by apply elem_of_nil in Hm.
  - eexists _, _, m. split; [exact Hc|]. split; [exact Hg|].
    split; [exact Hid|]. by destruct Hm as (_ & _ & _ & _ & _ & ? & _).
Defined.

Lemma create_invoice_cases env (q : CreateInvoiceRequest.t) s :
  exists dls inv,
    create_invoice env q s
    = (inr (CreateInvoiceResponse.mk (_id inv) (uuid4_hex env)),
       mkStore (db_deal s ++ dls) (db_mou s) (db_invoice s ++ [inv])
         (db_receipt s))
    /\ invoice_of_request env q (doc inv)
    /\ (exists d, d ∈ db_deal s ++ dls /\ _id d = Invoice.deal_id (doc inv) /\
                  deal_matches (CreateInvoiceRequest.client_name q)
                    (CreateInvoiceRequest.project_name q) d)
    /\ find_by_id (_id inv) (db_invoice s ++ [inv]) = Some inv.
Proof.
  unfold create_invoice. unfold_monad. simpl.
  destruct (List.find _ (db_deal s)) as [d|] eqn:Hf; simpl.
  - eexists [], (mkStored _ _ _). rewrite app_nil_r. split; [reflexivity|]. split; [by repeat split|].
    split.
    + exists d. apply find_first_deal in Hf.
      destruct Hf as (l1 & l2 & Hl & Hd & _). split; [|done].
      rewrite Hl. apply elem_of_app. right. constructor.
    + apply (find_by_id_new (db_invoice s) (mkStored _ _ _)).
      intros x Hx%fresh_oid_invoice. done.
  - eexists [mkStored _ _ _], (mkStored _ _ _).
    split; [reflexivity|]. split; [by repeat split|]. split.
    + eexists. split; [apply elem_of_app; right; constructor|]. done.
    + apply (find_by_id_new (db_invoice s) (mkStored _ _ _)).
      intros x Hx%fresh_oid_invoice. simpl. etrans; [exact Hx|].
      set (dl := mkStored (fresh_oid s) (clock1 env)
                   (Deal_of_names (CreateInvoiceRequest.client_name q)
                      (CreateInvoiceRequest.project_name q))).
      apply (fresh_oid_deal
               (mkStore (db_deal s ++ [dl]) (db_mou s) (db_invoice s)
                  (db_receipt s)) dl).
      simpl. apply elem_of_app. right. constructor.
Qed.


(** X8: when no invoice stored before has the generated token, the token
    that invoice creation returns fetches the invoice just created, with
    the status "sent" and the fields of the payload. *)
Theorem create_invoice_then_get env (q : CreateInvoiceRequest.t) s r s1 :
  create_invoice env q s = (inr r, s1) ->
  (forall i, i ∈ db_invoice s -> Invoice.view_token (doc i) <> uuid4_hex env) ->
  exists inv,
    get_invoice_by_token (CreateInvoiceResponse.view_url_token r) s1
    = (inr inv, s1) /\
    _id inv = CreateInvoiceResponse.invoice_id r /\
    invoice_of_request env q (doc inv).
Proof.
  intros Hc Hfresh.
  destruct (create_invoice_cases env q s) as (dls & inv & Hs & Hinv & _).
  rewrite Hs in Hc. injection Hc as <- <-. simpl.
  unfold get_invoice_by_token. unfold_monad. simpl.
  rewrite find_app_last.
  - by exists inv.
  - intros x Hx. destruct (by_view_token _ (doc x)) eqn:Hb; [|done].
    apply by_view_token_true in Hb. by destruct (Hfresh x Hx).
  - apply by_view_token_true.
    by destruct Hinv as (_ & _ & _ & _ & _ & _ & _ & _ & _ & _ & _ & ? & _).
Qed.

Lemma create_invoice_then_get_witness :
  exists r s1 inv,
    create_invoice env1 acme_invoice store_mou = (inr r, s1)
    /\ get_invoice_by_token (CreateInvoiceResponse.view_url_token r) s1
       = (inr inv, s1)
    /\ Invoice.status (doc inv) = "sent".
Proof.
  eassert (create_invoice env1 acme_invoice store_mou = (inr _, _)) as Hc
      by (vm_compute; reflexivity).
  destruct (create_invoice_then_get env1 acme_invoice store_mou _ _ Hc)
    as (inv & Hg & _ & Hi).
  - intros i Hi. by apply elem_of_nil in Hi.
  - eexists _, _, inv. split; [exact Hc|]. split; [exact Hg|].
    by destruct Hi as (_ & _ & _ & _ & _ & _ & _ & _ & _ & _ & ? & _).
Defined.

(** ** Marking paid *)

Lemma set_paid_paid_from pd payload (i : Stored Invoice.t) :
  paid_from pd payload i
    (mkStored (_id i) (created_at i) (set_paid pd payload (doc i))).
Proof. by repeat split. Qed.

Lemma receipt_of_receipt_from env token payload (i : Invoice.t) :
  receipt_from token (payment_date_of env payload) payload i
    (receipt_of env token payload i).
Proof. by repeat split. Qed.

Lemma mark_invoice_paid_first env token payload s l1 i l2 :
  first_with (fun x => Invoice.view_token (doc x) = token) (db_invoice s)
    l1 i l2 ->
  mark_invoice_paid env token payload s
  = (inr (MarkPaidResponse.mk "paid" (fresh_oid s)),
     mkStore (db_deal s) (db_mou s)
       (l1 ++ mkStored (_id i) (created_at i)
                 (set_paid (payment_date_of env payload) payload (doc i))
           :: l2)
       (db_receipt s
        ++ [mkStored (fresh_oid s) (clock1 env)
              (receipt_of env token payload (doc i))])).
Proof.
  intros Hfw.
  pose proof (first_with_find _ _ _ _ _ _ (invoice_token_filter token) Hfw)
    as Hf.
  rewrite (mark_invoice_paid_found env token payload s i Hf).
  destruct Hfw as (Hl & Hi & Hl1).
  rewrite Hl, update_first_middle; [done| |by apply by_view_token_true].
  intros x Hx. destruct (by_view_token token (doc x)) eqn:Hb; [|done].
  apply by_view_token_true in Hb. by destruct (Hl1 x Hx).
Qed.

(** X9: marking paid touches one invoice and adds one receipt, and nothing
    else.  The first invoice with the token keeps its place, identifier and
    identifying fields and gets the status "paid" with the payment fields
    of the request; the receipt copies the deal, the names, the number and
    the amount from this invoice as it was, and its payment date is the
    [paid_at] of the invoice; the other invoices, the deals, the MOUs and
    the receipts stored before are as they were. *)
Theorem mark_invoice_paid_effect env token (payload : MarkPaidRequest.t) s
  l1 i l2 :
  first_with (fun x => Invoice.view_token (doc x) = token) (db_invoice s)
    l1 i l2 ->
  exists i' r pd,
    mark_invoice_paid env token payload s
    = (inr (MarkPaidResponse.mk "paid" (_id r)),
       mkStore (db_deal s) (db_mou s) (l1 ++ i' :: l2) (db_receipt s ++ [r]))
    /\ paid_from pd payload i i'
    /\ receipt_from token pd payload (doc i) (doc r)
    /\ Invoice.paid_at (doc i') = Some (Receipt.payment_date (doc r)).
Proof.
  intros Hfw. rewrite (mark_invoice_paid_first env token payload s l1 i l2 Hfw).
  eexists (mkStored _ _ _), (mkStored _ _ _), (payment_date_of env payload).
  split; [reflexivity|]. split; [apply set_paid_paid_from|].
  split; [apply receipt_of_receipt_from|done].
Qed.

Lemma mark_invoice_paid_effect_witness :
  exists i i' r pd s',
    db_invoice store_invoice = [i]
    /\ mark_invoice_paid env2 "b7d4e9" paid_500 store_invoice
       = (inr (MarkPaidResponse.mk "paid" (_id r)), s')
    /\ db_invoice s' = [i'] /\ db_receipt s' = [r]
    /\ paid_from pd paid_500 i i'.
Proof.
  destruct (db_invoice store_invoice) as [|i [|]] eqn:Hi;
    [discriminate| |discriminate].
  destruct (mark_invoice_paid_effect env2 "b7d4e9" paid_500 store_invoice
              [] i []) as (i' & r & pd & Hs & Hp & _).
  - split; [exact Hi|]. split; [by injection Hi as <-|].
    intros x Hx. by apply elem_of_nil in Hx.
  - exists i, i', r, pd. eexists. split; [done|]. split; [exact Hs|]. done.
Defined.

(** X10: after an invoice was marked paid, fetching its token returns this
    invoice with the status "paid" and the payment fields of the request. *)
Theorem mark_paid_then_get env token (payload : MarkPaidRequest.t) s i :
  get_invoice_by_token token s = (inr i, s) ->
  exists r s' i' pd,
    mark_invoice_paid env token payload s
    = (inr (MarkPaidResponse.mk "paid" r), s') /\
    get_invoice_by_token token s' = (inr i', s') /\
    paid_from pd payload i i'.
Proof.
  unfold get_invoice_by_token at 1. unfold_monad. simpl.
  destruct (List.find _ (db_invoice s)) as [i0|] eqn:Hf; [|discriminate].
  intros [= ->].
  apply (find_first_with _ _ _ _ (invoice_token_filter token)) in Hf
    as (l1 & l2 & Hfw).
  rewrite (mark_invoice_paid_first env token payload s l1 i l2 Hfw).
  eexists _, _, _, (payment_date_of env payload).
  split; [reflexivity|]. split; [|apply set_paid_paid_from].
  destruct Hfw as (Hl & Hi & Hl1).
  unfold get_invoice_by_token. unfold_monad. simpl.
  rewrite find_middle; [done| |by apply by_view_token_true].
  intros x Hx. destruct (by_view_token token (doc x)) eqn:Hb; [|done].
  apply by_view_token_true in Hb. by destruct (Hl1 x Hx).
Qed.

Lemma mark_paid_then_get_witness :
  exists i r s' i',
    get_invoice_by_token "b7d4e9" store_invoice = (inr i, store_invoice)
    /\ mark_invoice_paid env2 "b7d4e9" paid_500 store_invoice
       = (inr (MarkPaidResponse.mk "paid" r), s')
    /\ get_invoice_by_token "b7d4e9" s' = (inr i', s')
    /\ Invoice.status (doc i') = "paid".
Proof.
  eassert (get_invoice_by_token "b7d4e9" store_invoice
           = (inr _, store_invoice)) as Hg by (vm_compute; reflexivity).
  destruct (mark_paid_then_get env2 "b7d4e9" paid_500 store_invoice _ Hg)
    as (r & s' & i' & pd & H1 & H2 & H3).
  eexists _, r, s', i'. split; [exact Hg|]. split; [exact H1|].
  split; [exact H2|]. by destruct H3 as (_ & _ & _ & ? & _).
Defined.

(** ** What one request does to the store *)

(** The five ways a request can leave the store: as it was; with one more
    deal and MOU; with one MOU signed; with one more invoice, and a deal
    for it if none had its names; with one invoice paid and one more
    receipt. *)
Lemma handle_effect env r s :
  handle env r s = s
  \/ (exists p dl m,
        r = CreateMou p /\
        handle env r s
        = mkStore (db_deal s ++ [dl]) (db_mou s ++ [m]) (db_invoice s)
            (db_receipt s) /\
        deal_active dl /\ mou_of_request env p (_id dl) (doc m))
  \/ (exists token payload l1 m l2,
        r = SignMou token payload /\
        SignMouRequest.agree payload = true /\
        first_with (fun x => Mou.sign_token (doc x) = token) (db_mou s)
          l1 m l2 /\
        handle env r s
        = mkStore (db_deal s)
            (l1 ++ mkStored (_id m) (created_at m)
                      (set_signed env payload (doc m)) :: l2)
            (db_invoice s) (db_receipt s))
  \/ (exists q dls inv,
        r = CreateInvoice q /\
        handle env r s
        = mkStore (db_deal s ++ dls) (db_mou s) (db_invoice s ++ [inv])
            (db_receipt s) /\
        invoice_of_request env q (doc inv) /\
        exists d, d ∈ db_deal s ++ dls /\ _id d = Invoice.deal_id (doc inv) /\
                  deal_matches (CreateInvoiceRequest.client_name q)
                    (CreateInvoiceRequest.project_name q) d)
  \/ (exists token payload l1 i l2,
        r = MarkInvoicePaid token payload /\
        first_with (fun x => Invoice.view_token (doc x) = token)
          (db_invoice s) l1 i l2 /\
        handle env r s
        = mkStore (db_deal s) (db_mou s)
            (l1 ++ mkStored (_id i) (created_at i)
                      (set_paid (payment_date_of env payload) payload
                         (doc i)) :: l2)
            (db_receipt s
             ++ [mkStored (fresh_oid s) (clock1 env)
                   (receipt_of env token payload (doc i))])).
Proof.
  destruct r as [| |payload|token|token payload|payload|token|token payload
                |cn pn]; simpl.
  - by left.
  - by left.
  - destruct (create_mou_cases env payload s)
      as [->|(dl & m & -> & Hdl & Hm & _)]; [by left|].
    right; left. by exists payload, dl, m.
  - left. unfold get_mou_by_token. unfold_monad. simpl.
    by destruct (List.find _ _).
  - destruct (SignMouRequest.agree payload) eqn:Ha.
    + destruct (List.find (fun d => by_sign_token token (doc d)) (db_mou s))
        as [m|] eqn:Hf.
      * apply (find_first_with _ _ _ _ (mou_token_filter token)) in Hf
          as (l1 & l2 & Hfw).
        right; right; left. exists token, payload, l1, m, l2.
        split; [done|]. split; [done|]. split; [done|].
        by rewrite (sign_mou_found env token payload s l1 m l2 Ha Hfw).
      * left.
        pose proof (proj1 (find_none_with _ _ _ (mou_token_filter token)) Hf)
          as Hn.
        by rewrite (sign_mou_missing env token payload s Ha Hn).
    + left. unfold sign_mou. by rewrite Ha.
  - destruct (create_invoice_cases env payload s)
      as (dls & inv & -> & Hinv & Hd & _).
    right; right; right; left. by exists payload, dls, inv.
  - left. unfold get_invoice_by_token. unfold_monad. simpl.
    by destruct (List.find _ _).
  - destruct (List.find (fun d => by_view_token token (doc d)) (db_invoice s))
      as [i|] eqn:Hf.
    + apply (find_first_with _ _ _ _ (invoice_token_filter token)) in Hf
        as (l1 & l2 & Hfw).
      right; right; right; right. exists token, payload, l1, i, l2.
      split; [done|]. split; [done|].
      by rewrite (mark_invoice_paid_first env token payload s l1 i l2 Hfw).
    + left. by rewrite (mark_invoice_paid_missing env token payload s Hf).
  - left. unfold deal_snapshot. unfold_monad. simpl.
    destruct (List.find _ _); simpl; [|done]. by destruct (latest _).
Qed.

(** ** References that the handlers keep *)

Lemma elem_of_replaced {A} (l1 l2 : list A) (y y' x : A) :
  x ∈ l1 ++ y' :: l2 -> x = y' \/ x ∈ l1 ++ y :: l2.
Proof.
  rewrite !elem_of_app, !elem_of_cons. tauto.
Qed.

Lemma elem_of_middle {A} (l1 l2 : list A) (y : A) : y ∈ l1 ++ y :: l2.
Proof. apply elem_of_app. right. constructor. Qed.

Lemma handle_integrity env r s : integrity s -> integrity (handle env r s).
Proof.
  intros (Hm & Hi & Hr & Hp).
  destruct (handle_effect env r s)
    as [->|[(p & dl & m & _ & -> & _ & Hmou)
           |[(token & payload & l1 & m & l2 & _ & _ & (Hl & _) & ->)
            |[(q & dls & inv & _ & -> & Hinv & d & Hd & Hid & Hdm)
             |(token & payload & l1 & i & l2 & _ & (Hl & Htok & _) & ->)]]]];
    [done|..]; unfold integrity, mous_have_deal, invoices_have_deal,
      receipts_have_invoice, paid_have_receipt in *; simpl.
  - (* one more deal and MOU *)
    split; [|split; [|done]].
    + intros x [Hx| ->%list_elem_of_singleton]%elem_of_app.
      * destruct (Hm x Hx) as (d & Hd & Hid). exists d.
        split; [apply elem_of_app; by left|done].
      * exists dl. split; [apply elem_of_app; right; constructor|].
        by destruct Hmou as [-> _].
    + intros x Hx. destruct (Hi x Hx) as (d & Hd & Hid). exists d.
      split; [apply elem_of_app; by left|done].
  - (* one MOU signed *)
    split; [|done]. intros x [->|Hx]%(elem_of_replaced _ _ m).
    + simpl. apply Hm. rewrite Hl. apply elem_of_middle.
    + apply Hm. by rewrite Hl.
  - (* one more invoice *)
    split; [|split; [|split]].
    + intros x Hx. destruct (Hm x Hx) as (d0 & Hd0 & Hid0). exists d0.
      split; [apply elem_of_app; by left|done].
    + intros x [Hx| ->%list_elem_of_singleton]%elem_of_app.
      * destruct (Hi x Hx) as (d0 & Hd0 & Hid0). exists d0.
        split; [apply elem_of_app; by left|done].
      * exists d. split; [done|]. split; [done|].
        destruct Hinv as (_ & -> & -> & _). done.
    + intros x Hx. destruct (Hr x Hx) as (i0 & Hi0 & H0). exists i0.
      split; [apply elem_of_app; by left|done].
    + intros x [Hx| ->%list_elem_of_singleton]%elem_of_app Hpaid.
      * by apply Hp.
      * destruct Hinv as (_ & _ & _ & _ & _ & _ & _ & _ & _ & _ & Hs & _).
        rewrite Hs in Hpaid. discriminate.
  - (* one invoice paid, one more receipt *)
    split; [done|]. split; [|split].
    + intros x [->|Hx]%(elem_of_replaced _ _ i).
      * simpl. apply Hi. rewrite Hl. apply elem_of_middle.
      * apply Hi. by rewrite Hl.
    + intros x [Hx| ->%list_elem_of_singleton]%elem_of_app.
      * destruct (Hr x Hx) as (i0 & Hi0 & H0). rewrite Hl in Hi0.
        apply elem_of_app in Hi0 as [Hi0|[->|Hi0]%elem_of_cons].
        -- exists i0. split; [apply elem_of_app; by left|done].
        -- eexists. split; [apply elem_of_middle|]. done.
        -- exists i0.
           split; [apply elem_of_app; right; by constructor|done].
      * eexists. split; [apply elem_of_middle|]. simpl. done.
    + intros x [->|Hx]%(elem_of_replaced _ _ i) Hpaid.
      * eexists. split; [apply elem_of_app; right; constructor|]. simpl.
        done.
      * rewrite <- Hl in Hx. destruct (Hp x Hx Hpaid) as (r0 & Hr0 & H0).
        exists r0. split; [apply elem_of_app; by left|done].
Qed.

Lemma reachable_integrity s : reachable s -> integrity s.
Proof.
  induction 1 as [|s env r _ IH]; [|by apply handle_integrity].
  repeat split; intros x Hx; by apply elem_of_nil in Hx.
Qed.

Lemma store_paid_reachable : reachable store_paid.
Proof. apply reachable_run. constructor. Qed.

(** X11: in every store the handlers can produce, no reference dangles:
    every MOU and every invoice refers to a stored deal, the deal of an
    invoice has the names that the invoice carries, and every receipt
    carries the token, the deal, the names, the number and the amount of a
    stored invoice. *)
Theorem references_kept s :
  reachable s ->
  mous_have_deal s /\ invoices_have_deal s /\ receipts_have_invoice s.
Proof.
  intros (Hm & Hi & Hr & _)%reachable_integrity. done.
Qed.

Lemma references_kept_witness :
  exists r i,
    r ∈ db_receipt store_paid /\ i ∈ db_invoice store_paid /\
    Invoice.view_token (doc i) = Receipt.invoice_token (doc r).
Proof.
  destruct (db_receipt store_paid) as [|r l] eqn:Hr; [discriminate|].
  destruct (proj2 (proj2 (references_kept store_paid store_paid_reachable))
              r) as (i & Hi & Ht & _).
  - rewrite Hr. constructor.
  - exists r, i. split; [constructor|]. done.
Defined.

Lemma hint_receipt_only ms ins receipt :
  (if String.eqb ms "draft" then hint_sign
   else if String.eqb ms "signed" && String.eqb ins "draft" then hint_invoice
   else if String.eqb ins "paid" && negb receipt then hint_receipt
   else "") = hint_receipt ->
  ins = "paid" /\ receipt = false.
Proof.
  destruct (String.eqb ms "draft"); [discriminate|].
  destruct (String.eqb ms "signed" && String.eqb ins "draft");
    [discriminate|].
  destruct (String.eqb_spec ins "paid") as [->|]; [|discriminate].
  destruct receipt; [discriminate|done].
Qed.

(** X12: in every store the handlers can produce, a paid invoice has a
    receipt for its token.  Hence the snapshot never returns the hint
    "Next: Generate receipt and send.", and shows a receipt whenever it
    shows the invoice status "Paid". *)
Theorem hint_receipt_unreachable s cn pn snap :
  reachable s ->
  deal_snapshot cn pn s = (inr snap, s) ->
  paid_have_receipt s /\
  Snapshot.next_step snap <> hint_receipt /\
  (StatusLink.status (Snapshot.invoice snap) = "Paid" ->
   Snapshot.receipt_available snap = true).
Proof.
  intros Hreach Hs.
  pose proof (reachable_integrity s Hreach) as (_ & _ & _ & Hp).
  pose proof (reachable_statuses_ok s Hreach) as [_ Hi].
  rewrite Forall_forall in Hi. split; [exact Hp|].
  revert Hs. unfold deal_snapshot. unfold_monad. simpl.
  destruct (List.find _ (db_deal s)) as [dl|]; [|discriminate].
  pose proof (latest_filter_spec
                (fun i => invoice_by_deal_id (_id dl) (doc i))
                (fun i => Invoice.deal_id (doc i) = _id dl) (db_invoice s)
                (fun x => Nat.eqb_eq _ _)) as Hinv.
  destruct (latest (List.filter (fun i => invoice_by_deal_id _ _) _))
    as [i|]; intros [= <-];
    cbn [Snapshot.next_step Snapshot.invoice Snapshot.receipt_available].
  - destruct Hinv as (Hin & _).
    assert (Invoice.status (doc i) = "paid" ->
            found (latest (List.filter
                             (fun r => by_invoice_token
                                         (Invoice.view_token (doc i)) (doc r))
                             (db_receipt s))) = true) as Hfound.
    { intros Hpaid. apply found_latest_receipt. by apply Hp. }
    split.
    + intros [Hins Hrec]%hint_receipt_only. simpl in Hins, Hrec.
      destruct (Hi i Hin) as [Hst|Hst].
      * rewrite Hst in Hins. discriminate.
      * rewrite (Hfound Hst) in Hrec. discriminate.
    + simpl. intros Hpaid. apply Hfound.
      destruct (Hi i Hin) as [Hst|Hst]; [|done].
      rewrite Hst in Hpaid. discriminate.
  - split; [|discriminate].
    intros Hh. repeat case_match; discriminate.
Qed.

Lemma hint_receipt_unreachable_witness :
  exists snap,
    deal_snapshot "Acme" "Website" store_paid = (inr snap, store_paid)
    /\ Snapshot.next_step snap <> hint_receipt
    /\ Snapshot.receipt_available snap = true.
Proof.
  eassert (deal_snapshot "Acme" "Website" store_paid = (inr _, store_paid))
    as Hs by (vm_compute; reflexivity).
  destruct (hint_receipt_unreachable store_paid "Acme" "Website" _
              store_paid_reachable Hs) as (_ & Hh & Hr).
  eexists. split; [exact Hs|]. split; [exact Hh|]. by apply Hr.
Defined.

(** ** The life of an invoice and of a receipt *)

Lemma same_invoice_refl i : same_invoice i i.
Proof. by repeat split. Qed.

(** X13: in a store the handlers can produce, an invoice has the status
    "sent" or "paid".  A request leaves a stored invoice in its place, with
    its identifier and identifying fields, and either unchanged or, when it
    marks paid the token of this invoice, with the status "paid" and the
    payment fields of the request.  An invoice that a request adds comes
    from an invoice creation, with the status "sent" and no payment. *)
Theorem invoice_lifecycle s env r :
  reachable s ->
  (forall k i,
     db_invoice s !! k = Some i ->
     invoice_status_ok i /\
     exists i',
       db_invoice (handle env r s) !! k = Some i' /\
       _id i' = _id i /\
       same_invoice (doc i) (doc i') /\
       (i' = i \/
        exists token payload pd,
          r = MarkInvoicePaid token payload /\
          Invoice.view_token (doc i) = token /\
          paid_from pd payload i i'))
  /\
  (forall k i',
     db_invoice s !! k = None -> db_invoice (handle env r s) !! k = Some i' ->
     exists q, r = CreateInvoice q /\ invoice_of_request env q (doc i')).
Proof.
  intros [_ Hok]%reachable_statuses_ok. rewrite Forall_forall in Hok.
  assert (forall k i, db_invoice s !! k = Some i -> invoice_status_ok i)
    as Hst by (intros k i Hk; eapply Hok, list_elem_of_lookup_2, Hk).
  assert (forall k i, db_invoice s !! k = Some i ->
            exists i', db_invoice s !! k = Some i' /\ _id i' = _id i /\
                       same_invoice (doc i) (doc i') /\
                       (i' = i \/
                        exists token payload pd,
                          r = MarkInvoicePaid token payload /\
                          Invoice.view_token (doc i) = token /\
                          paid_from pd payload i i')) as Hsame.
  { intros k i Hk. exists i. split; [done|]. split; [done|].
    split; [apply same_invoice_refl|by left]. }
  destruct (handle_effect env r s)
    as [->|[(p & dl & m & _ & -> & _)
           |[(token & payload & l1 & m & l2 & _ & _ & _ & ->)
            |[(q & dls & inv & Hr & -> & Hinv & _)
             |(token & payload & l1 & i0 & l2 & Hr & (Hl & Htok & _) & ->)]]]];
    simpl.
  - split; [intros k i Hk; split; [by eapply Hst|by apply Hsame]|].
    intros k i' Hn Hs. congruence.
  - split; [intros k i Hk; split; [by eapply Hst|by apply Hsame]|].
    intros k i' Hn Hs. congruence.
  - split; [intros k i Hk; split; [by eapply Hst|by apply Hsame]|].
    intros k i' Hn Hs. congruence.
  - split.
    + intros k i Hk. split; [by eapply Hst|]. exists i.
      split; [by apply lookup_app_l_Some|]. split; [done|].
      split; [apply same_invoice_refl|by left].
    + intros k i' Hn Hs. apply lookup_ge_None in Hn.
      rewrite lookup_app_r in Hs by done.
      apply list_lookup_singleton_Some in Hs as [_ <-]. by exists q.
  - split.
    + intros k i Hk. split; [by eapply Hst|].
      destruct (decide (k = length l1)) as [->|Hne].
      * rewrite Hl, list_lookup_middle in Hk by done. injection Hk as <-.
        eexists. split; [by apply list_lookup_middle|]. split; [done|].
        split; [by repeat split|]. right.
        exists token, payload, (payment_date_of env payload).
        split; [done|]. split; [done|]. apply set_paid_paid_from.
      * exists i. split.
        { rewrite (lookup_replace_middle l1 l2 i0) by done.
          by rewrite <- Hl. }
        split; [done|]. split; [apply same_invoice_refl|by left].
    + intros k i' Hn Hs. exfalso. apply lookup_ge_None in Hn.
      apply lookup_lt_Some in Hs. rewrite Hl in Hn.
      rewrite !length_app in *. simpl in *. lia.
Qed.

Lemma invoice_lifecycle_witness :
  exists i i',
    db_invoice store_invoice !! 0 = Some i
    /\ db_invoice (handle env2 (MarkInvoicePaid "b7d4e9" paid_500)
                     store_invoice) !! 0 = Some i'
    /\ same_invoice (doc i) (doc i').
Proof.
  destruct (db_invoice store_invoice !! 0) as [i|] eqn:Hi; [|discriminate].
  destruct (proj1 (invoice_lifecycle store_invoice env2
                     (MarkInvoicePaid "b7d4e9" paid_500)
                     ltac:(unfold store_invoice; repeat constructor))
              0 i Hi) as (_ & i' & Hi' & _ & Hsame & _).
  by exists i, i'.
Defined.

(** X14: receipts are only ever added.  A request leaves the stored
    receipts in place and unchanged; it adds at most one, only when it
    marks an invoice paid, and this receipt carries the token of the
    request.  Hence, whatever requests are served, the receipts stored
    before are all still there afterwards, unchanged. *)
Theorem receipts_append_only (reqs : list (Env * Request)) env r s :
  (db_receipt (handle env r s) = db_receipt s
   \/ exists token payload rc,
        r = MarkInvoicePaid token payload /\
        db_receipt (handle env r s) = db_receipt s ++ [rc] /\
        Receipt.invoice_token (doc rc) = token)
  /\
  (exists new, db_receipt (run reqs s) = db_receipt s ++ new).
Proof.
  assert (forall env r s,
            db_receipt (handle env r s) = db_receipt s
            \/ exists token payload rc,
                 r = MarkInvoicePaid token payload /\
                 db_receipt (handle env r s) = db_receipt s ++ [rc] /\
                 Receipt.invoice_token (doc rc) = token) as Hstep.
  { clear. intros env r s.
    destruct (handle_effect env r s)
      as [->|[(p & dl & m & _ & -> & _)
             |[(token & payload & l1 & m & l2 & _ & _ & _ & ->)
              |[(q & dls & inv & _ & -> & _)
               |(token & payload & l1 & i0 & l2 & Hr & _ & ->)]]]];
      simpl; try by left.
    right. by eexists token, payload, _. }
  split; [apply Hstep|]. clear env r.
  revert s. induction reqs as [|[env r] reqs IH]; intros s; simpl.
  - exists []. by rewrite app_nil_r.
  - destruct (IH (handle env r s)) as (new2 & ->).
    destruct (Hstep env r s) as [->|(token & payload & rc & _ & -> & _)].
    + by exists new2.
    + exists (rc :: new2). by rewrite <- app_assoc.
Qed.

(** ** What the snapshot shows *)

Lemma latest_filter_none {A} (f : Stored A -> bool) (l : list (Stored A)) :
  (forall x, x ∈ l -> f x = false) -> latest (List.filter f l) = None.
Proof.
  intros H. apply latest_None. induction l as [|x l IH]; simpl; [done|].
  rewrite (H x) by constructor. apply IH. intros y Hy. apply H.
  by constructor.
Qed.

(** X15: for a deal to which no MOU refers, the snapshot shows the MOU as
    "Draft" without a link and gives the hint to generate the sign link,
    whatever invoices and receipts the deal has; with no invoice either, it
    is exactly: "Draft", "Draft", no receipt, this hint. *)
Theorem snapshot_without_mou cn pn s dl :
  first_deal cn pn (db_deal s) dl ->
  (forall m, m ∈ db_mou s -> Mou.deal_id (doc m) <> _id dl) ->
  exists snap,
    deal_snapshot cn pn s = (inr snap, s) /\
    Snapshot.mou snap = StatusLink.mk "Draft" None /\
    Snapshot.next_step snap = hint_sign /\
    ((forall i, i ∈ db_invoice s -> Invoice.deal_id (doc i) <> _id dl) ->
     snap = {| Snapshot.client_name := cn;
               Snapshot.project_name := pn;
               Snapshot.mou := StatusLink.mk "Draft" None;
               Snapshot.invoice := StatusLink.mk "Draft" None;
               Snapshot.receipt_available := false;
               Snapshot.next_step := hint_sign |}).
Proof.
  intros Hdl%find_first_deal Hnomou.
  unfold deal_snapshot. unfold_monad. simpl. rewrite Hdl.
  rewrite (latest_filter_none (fun m => mou_by_deal_id (_id dl) (doc m))).
  2:{ intros x Hx. apply Nat.eqb_neq. by apply Hnomou. }
  destruct (latest (List.filter (fun i => invoice_by_deal_id _ _) _))
    as [i|] eqn:Ei.
  - eexists. split; [reflexivity|]. simpl. split; [done|]. split; [done|].
    intros Hnoinv.
    rewrite (latest_filter_none
               (fun i => invoice_by_deal_id (_id dl) (doc i))) in Ei;
      [discriminate|].
    intros x Hx. apply Nat.eqb_neq. by apply Hnoinv.
  - eexists. split; [reflexivity|]. done.
Qed.

Lemma snapshot_without_mou_witness :
  exists snap,
    deal_snapshot "Acme" "Website" store_invoice = (inr snap, store_invoice)
    /\ Snapshot.next_step snap = hint_sign.
Proof.
  destruct (db_deal store_invoice) as [|dl [|]] eqn:Hd;
    [discriminate| |discriminate].
  destruct (snapshot_without_mou "Acme" "Website" store_invoice dl)
    as (snap & Hs & _ & Hh & _).
  - exists [], []. rewrite Hd. split; [done|].
    split; [by injection Hd as <-|]. intros x Hx. by apply elem_of_nil in Hx.
  - intros m Hm. by apply elem_of_nil in Hm.
  - by exists snap.
Defined.

(** X16: on a store the handlers can produce, a snapshot shows the MOU as
    "Draft", "Sent" or "Signed" and the invoice as "Draft", "Sent" or
    "Paid"; its hint is the one to generate the sign link, the one to
    generate the invoice, or empty; and it is the hint to generate the sign
    link exactly when the MOU is shown as "Draft". *)
Theorem snapshot_values s cn pn snap :
  reachable s ->
  deal_snapshot cn pn s = (inr snap, s) ->
  (StatusLink.status (Snapshot.mou snap) = "Draft" \/
   StatusLink.status (Snapshot.mou snap) = "Sent" \/
   StatusLink.status (Snapshot.mou snap) = "Signed") /\
  (StatusLink.status (Snapshot.invoice snap) = "Draft" \/
   StatusLink.status (Snapshot.invoice snap) = "Sent" \/
   StatusLink.status (Snapshot.invoice snap) = "Paid") /\
  (Snapshot.next_step snap = hint_sign \/
   Snapshot.next_step snap = hint_invoice \/
   Snapshot.next_step snap = "") /\
  (Snapshot.next_step snap = hint_sign <->
   StatusLink.status (Snapshot.mou snap) = "Draft").
Proof.
  intros Hreach Hs.
  pose proof (reachable_integrity s Hreach) as (_ & _ & _ & Hp).
  pose proof (reachable_statuses_ok s Hreach) as [Hm Hi].
  rewrite Forall_forall in Hm. rewrite Forall_forall in Hi.
  revert Hs. unfold deal_snapshot. unfold_monad. simpl.
  destruct (List.find _ (db_deal s)) as [dl|]; [|discriminate].
  pose proof (latest_filter_spec (fun m => mou_by_deal_id (_id dl) (doc m))
                (fun m => Mou.deal_id (doc m) = _id dl) (db_mou s)
                (fun x => Nat.eqb_eq _ _)) as Hmou.
  pose proof (latest_filter_spec
                (fun i => invoice_by_deal_id (_id dl) (doc i))
                (fun i => Invoice.deal_id (doc i) = _id dl) (db_invoice s)
                (fun x => Nat.eqb_eq _ _)) as Hinv.
  destruct (latest (List.filter (fun m => mou_by_deal_id _ _) _)) as [m|];
    destruct (latest (List.filter (fun i => invoice_by_deal_id _ _) _))
      as [i|]; simpl in *; intros [= <-]; simpl.
  - destruct Hinv as (Hin & _).
    destruct (Hm m (proj1 Hmou)) as [-> | ->],
      (Hi i Hin) as [Hst | Hst]; rewrite Hst; simpl;
      try (rewrite (proj2 (found_latest_receipt _ _) (Hp i Hin Hst)); simpl);
      (split; [auto|]); (split; [auto|]); (split; [auto|]);
      split; discriminate.
  - destruct (Hm m (proj1 Hmou)) as [-> | ->]; simpl;
      (split; [auto|]); (split; [auto|]); (split; [auto|]);
      split; discriminate.
  - destruct Hinv as (Hin & _).
    destruct (Hi i Hin) as [Hst | Hst]; rewrite Hst; simpl;
      (split; [auto|]); (split; [auto|]); (split; [auto|]); done.
  - do 3 (split; [auto|]). done.
Qed.

Lemma snapshot_values_witness :
  exists snap,
    deal_snapshot "Acme" "Website" store_paid = (inr snap, store_paid)
    /\ (Snapshot.next_step snap = hint_sign <->
        StatusLink.status (Snapshot.mou snap) = "Draft").
Proof.
  eassert (deal_snapshot "Acme" "Website" store_paid = (inr _, store_paid))
    as Hs by (vm_compute; reflexivity).
  destruct (snapshot_values store_paid "Acme" "Website" _
              store_paid_reachable Hs) as (_ & _ & _ & H).
  eexists. split; [exact Hs|exact H].
Defined.

(** ** From the MOU to the receipt *)

Lemma latest_filter_last {A} (f : Stored A -> bool) (l : list (Stored A)) x :
  (forall y, y ∈ l -> f y = false) -> f x = true ->
  latest (List.filter f (l ++ [x])) = Some x.
Proof.
  intros Hl Hx. rewrite List.filter_app. simpl. rewrite Hx.
  assert (List.filter f l = []) as ->; [|done].
  induction l as [|y l IH]; simpl; [done|].
  rewrite (Hl y) by constructor. apply IH. intros z Hz. apply Hl.
  by constructor.
Qed.

(** X17: the whole course of a deal, for any payloads.  On a store the
    handlers can produce, let an MOU creation succeed for names that no
    stored deal has, with a token that is not empty and that no stored MOU
    has; let it be signed with agreement, let an invoice be created for the
    same names, with a token that is not empty and that no stored invoice
    has, and let this invoice be marked paid.  Then the invoice has reused
    the deal of the MOU, and the snapshot of these names shows "Signed" and
    "Paid" with the two links, a receipt, and no hint. *)
Theorem mou_to_paid env_a (p : CreateMouRequest.t) s r1 s1 dl
  env_b (sg : SignMouRequest.t) env_c (q : CreateInvoiceRequest.t)
  env_d (pay : MarkPaidRequest.t) :
  reachable s ->
  create_mou env_a p s = (inr r1, s1) ->
  db_deal s1 = db_deal s ++ [dl] ->
  (forall d, d ∈ db_deal s ->
     ~ deal_matches (Deal.client_name (doc dl)) (Deal.project_name (doc dl))
         d) ->
  (forall m, m ∈ db_mou s -> Mou.sign_token (doc m) <> uuid4_hex env_a) ->
  (forall i, i ∈ db_invoice s ->
     Invoice.view_token (doc i) <> uuid4_hex env_c) ->
  uuid4_hex env_a <> "" ->
  uuid4_hex env_c <> "" ->
  SignMouRequest.agree sg = true ->
  CreateInvoiceRequest.client_name q = Deal.client_name (doc dl) ->
  CreateInvoiceRequest.project_name q = Deal.project_name (doc dl) ->
  let s4 :=
    run [(env_b, SignMou (uuid4_hex env_a) sg);
         (env_c, CreateInvoice q);
         (env_d, MarkInvoicePaid (uuid4_hex env_c) pay)] s1 in
  db_deal s4 = db_deal s ++ [dl] /\
  deal_snapshot (Deal.client_name (doc dl)) (Deal.project_name (doc dl)) s4
  = (inr {| Snapshot.client_name := Deal.client_name (doc dl);
            Snapshot.project_name := Deal.project_name (doc dl);
            Snapshot.mou :=
              StatusLink.mk "Signed"
                (Some (String.append "/sign/" (uuid4_hex env_a)));
            Snapshot.invoice :=
              StatusLink.mk "Paid"
                (Some (String.append "/invoice/" (uuid4_hex env_c)));
            Snapshot.receipt_available := true;
            Snapshot.next_step := "" |}, s4).
Proof.
  intros Hreach Hc Hdl Hnames Hta Htc Hna Hnc Hag Hcn Hpn.
  pose proof (reachable_integrity s Hreach) as (Hm & Hi & Hr & _).
  apply create_mou_inr
    in Hc as (dl0 & m & _ & -> & Hid & _ & Hmd & _ & Hmt & _).
  simpl in Hdl. apply app_inj_tail in Hdl as [_ ->].
  (* signing *)
  set (s1 := mkStore (db_deal s ++ [dl]) (db_mou s ++ [m]) (db_invoice s)
               (db_receipt s)).
  assert (first_with (fun x => Mou.sign_token (doc x) = uuid4_hex env_a)
            (db_mou s1) (db_mou s) m []) as Hfm by done.
  simpl. rewrite (sign_mou_found env_b _ sg s1 _ _ _ Hag Hfm). simpl.
  (* creating the invoice *)
  set (m' := mkStored (_id m) (created_at m) (set_signed env_b sg (doc m))).
  set (s2 := mkStore (db_deal s ++ [dl]) (db_mou s ++ [m']) (db_invoice s)
               (db_receipt s)).
  assert (first_deal (CreateInvoiceRequest.client_name q)
            (CreateInvoiceRequest.project_name q) (db_deal s2) dl) as Hfd.
  { rewrite Hcn, Hpn. by apply first_deal_app_last. }
  destruct (create_invoice_existing env_c q s2 dl Hfd)
    as (inv & -> & Hinvd & Hinvs & Hinvt).
  simpl.
  (* marking it paid *)
  set (s3 := mkStore (db_deal s ++ [dl]) (db_mou s ++ [m'])
               (db_invoice s ++ [inv]) (db_receipt s)).
  assert (first_with (fun x => Invoice.view_token (doc x) = uuid4_hex env_c)
            (db_invoice s3) (db_invoice s) inv []) as Hfi by done.
  rewrite (mark_invoice_paid_first env_d _ pay s3 _ _ _ Hfi).
  simpl. split; [done|].
  (* the snapshot *)
  set (i' := mkStored (_id inv) (created_at inv)
               (set_paid (payment_date_of env_d pay) pay (doc inv))).
  set (rc := mkStored (fresh_oid s3) (clock1 env_d)
               (receipt_of env_d (uuid4_hex env_c) pay (doc inv))).
  remember (mkStore (db_deal s ++ [dl]) (db_mou s ++ [m'])
              (db_invoice s ++ [i']) (db_receipt s ++ [rc])) as s4 eqn:Hs4.
  assert (db_deal s4 = db_deal s ++ [dl]) as Hd4 by (by rewrite Hs4).
  assert (db_mou s4 = db_mou s ++ [m']) as Hm4 by (by rewrite Hs4).
  assert (db_invoice s4 = db_invoice s ++ [i']) as Hi4 by (by rewrite Hs4).
  assert (db_receipt s4 = db_receipt s ++ [rc]) as Hr4 by (by rewrite Hs4).
  clear Hs4. unfold deal_snapshot. unfold_monad. simpl.
  rewrite Hd4.
  rewrite (proj2 (find_first_deal _ _ _ dl));
    [|by apply first_deal_app_last].
  simpl. rewrite Hm4, Hi4.
  rewrite (latest_filter_last
             (fun d => mou_by_deal_id (_id dl) (doc d)) (db_mou s) m').
  2:{ intros y Hy. apply Nat.eqb_neq. destruct (Hm y Hy) as (d & Hd & <-).
      apply fresh_oid_deal in Hd. lia. }
  2:{ apply Nat.eqb_eq. exact Hmd. }
  rewrite (latest_filter_last
             (fun d => invoice_by_deal_id (_id dl) (doc d)) (db_invoice s)
             i').
  2:{ intros y Hy. apply Nat.eqb_neq.
      destruct (Hi y Hy) as (d & Hd & <- & _).
      apply fresh_oid_deal in Hd. lia. }
  2:{ apply Nat.eqb_eq. exact Hinvd. }
  cbn beta iota. rewrite Hr4.
  assert (Invoice.view_token (doc i') = uuid4_hex env_c) as Hv by exact Hinvt.
  rewrite Hv.
  rewrite (latest_filter_last
             (fun d => by_invoice_token (uuid4_hex env_c) (doc d))
             (db_receipt s) rc).
  2:{ intros y Hy. destruct (by_invoice_token _ (doc y)) eqn:Hb; [|done].
      apply String.eqb_eq in Hb. destruct (Hr y Hy) as (i0 & Hi0 & Ht0 & _).
      destruct (Htc i0 Hi0). congruence. }
  2:{ apply String.eqb_eq. done. }
  unfold mou_status, invoice_status.
  assert (Mou.sign_token (doc m') = uuid4_hex env_a) as -> by exact Hmt.
  rewrite Hv.
  rewrite (proj2 (str_truthy_true _) Hna), (proj2 (str_truthy_true _) Hnc).
  done.
Qed.

Lemma mou_to_paid_witness :
  fst (deal_snapshot "Acme" "Website" store_paid)
  = inr {| Snapshot.client_name := "Acme";
           Snapshot.project_name := "Website";
           Snapshot.mou := StatusLink.mk "Signed" (Some "/sign/a3f1c2");
           Snapshot.invoice := StatusLink.mk "Paid" (Some "/invoice/b7d4e9");
           Snapshot.receipt_available := true;
           Snapshot.next_step := "" |}.
Proof.
  eassert (create_mou env0 acme_mou empty_store = (inr _, _)) as Hc
      by (vm_compute; reflexivity).
  epose proof (mou_to_paid env0 acme_mou empty_store _ _
                 (mkStored 1 10 (Deal_of_names "Acme" "Website"))
                 env1 sign_bob env1 acme_invoice env2 paid_500
                 reachable_empty Hc eq_refl) as H.
  destruct H as [_ H].
  - intros d Hd. by apply elem_of_nil in Hd.
  - intros m Hm. by apply elem_of_nil in Hm.
  - intros i Hi. by apply elem_of_nil in Hi.
  - discriminate.
  - discriminate.
  - reflexivity.
  - reflexivity.
  - reflexivity.
  - exact (f_equal fst H).
Defined.

(** ** Diagnostics *)





(** ** The two keys of the client name *)

(** X19: how [or] chooses between the two keys.  A value under
    "client_name" that is false for Python (null, false, zero, an empty
    string, list or object) is passed over, and the string under "name" is
    the client name of the deal.  A non-empty list or object under
    "client_name" is not passed over: the deal does not validate, whatever
    "name" holds, and the store is left as it was. *)
Theorem create_mou_client_name_key env (p : CreateMouRequest.t) s :
  (forall n pn,
     truthy (dict_get (CreateMouRequest.client_details p) "client_name")
     = false ->
     CreateMouRequest.client_details p !! "name" = Some (JStr n) ->
     project_name_from (CreateMouRequest.project p) pn ->
     optional_str (CreateMouRequest.client_details p) "company" ->
     optional_str (CreateMouRequest.client_details p) "contact" ->
     optional_str (CreateMouRequest.project p) "description" ->
     exists r s1 dl,
       create_mou env p s = (inr r, s1) /\
       db_deal s1 = db_deal s ++ [dl] /\
       Deal.client_name (doc dl) = n /\
       Deal.project_name (doc dl) = pn)
  /\
  (forall v,
     CreateMouRequest.client_details p !! "client_name" = Some v ->
     truthy v = true ->
     (exists l, v = JArr l) \/ (exists m, v = JObj m) ->
     create_mou env p s = (inl ValidationError, s)).
Proof.
  split.
  - intros n pn Hfalsy Hname Hpn%project_name_from_get
      [cc Hcc]%validate_opt_str_optional [ct Hct]%validate_opt_str_optional
      [pd Hpd]%validate_opt_str_optional.
    unfold create_mou. unfold_monad. unfold Deal_new, py_or.
    rewrite Hfalsy. unfold dict_get_default at 1. rewrite Hname.
    rewrite Hpn, Hcc, Hct, Hpd. simpl.
    eexists _, _, (mkStored _ _ _). split; [reflexivity|]. done.
  - intros v Hv Ht Hshape.
    unfold create_mou. unfold_monad. unfold Deal_new, py_or, dict_get at 1 2.
    rewrite Hv. simpl. rewrite Ht.
    by destruct Hshape as [[l ->]|[m ->]].
Qed.

Lemma create_mou_client_name_key_witness :
  (exists r s1 dl,
     create_mou env0 zero_mou empty_store = (inr r, s1) /\
     db_deal s1 = [dl] /\ Deal.client_name (doc dl) = "Acme")
  /\ create_mou env0 listed_mou empty_store
     = (inl ValidationError, empty_store).
Proof.
  split.
  - destruct (proj1 (create_mou_client_name_key env0 zero_mou empty_store)
                "Acme" "Website") as (r & s1 & dl & Hc & Hd & Hn & _).
    + vm_compute. reflexivity.
    + vm_compute. reflexivity.
    + left. vm_compute. reflexivity.
    + left. vm_compute. reflexivity.
    + left. vm_compute. reflexivity.
    + left. vm_compute. reflexivity.
    + by exists r, s1, dl.
  - apply (proj2 (create_mou_client_name_key env0 listed_mou empty_store)
             (JArr [JStr "Acme"])).
    + vm_compute. reflexivity.
    + reflexivity.
    + left. by eexists.
Defined.
